(** * GrovePi host driver: the command/response protocol layer of [grovepi.py]

    A shallow embedding of [src/grovepi.py].  Every Python function of the
    module becomes a computation in a small monad that threads the history of
    transport calls (the trace) and carries Python exceptions as values.  The
    SMBus transport, which is not part of the repository, is a parameter: a
    record of three functions that answer each call from the history so far. *)

From Stdlib Require Import ZArith List String Lia Floats DecimalString.
From stdpp Require Import base list.

#[local] Open Scope Z_scope.

(** ** Python values and exceptions *)

(** The values the module receives as loosely typed arguments ([mode],
    [model]) and the values its functions return. *)
Inductive pyval : Type :=
| VNone
| VInt (z : Z)
| VFloat (f : float)
| VStr (s : string)
| VList (l : list Z)
| VFloats (l : list float)
| VTuple (l : list Z).

(** Built-in exceptions that can reach the module's code.  [IOError] is what
    the transport raises; the others are raised by the interpreter or by the
    standard library ([struct.error] is [StructError]). *)
Inductive builtin_exn : Type :=
| IOError (errno : Z)
| ZeroDivisionError
| ValueError
| IndexError
| TypeError
| OverflowError
| StructError.

(** [class GrovePiException(Exception): pass] -- the only exception class the
    module defines.  It is raised in three shapes: [GrovePiException(e)],
    bare [GrovePiException] and [GrovePiException("NaN")]. *)
Inductive grovepi_args : Type :=
| NoArgs
| OfExn (e : builtin_exn)
| OfStr (s : string).

Inductive exn : Type :=
| Builtin (e : builtin_exn)
| GrovePiException (a : grovepi_args).

Inductive outcome (A : Type) : Type :=
| Ok (a : A)
| Raise (e : exn).
Arguments Ok {A} a.
Arguments Raise {A} e.

(** ** The transport and the trace of effects *)

Inductive io_result (A : Type) : Type :=
| IOOk (a : A)
| IOFail (errno : Z).
Arguments IOOk {A} a.
Arguments IOFail {A} errno.

(** One entry per effect the module performs, in program order.  Sleeps are
    recorded in milliseconds. *)
Inductive event : Type :=
| EvWrite (addr cmd : Z) (block : list Z)
| EvReadByte (addr : Z)
| EvReadBlock (addr cmd : Z)
| EvSleep (ms : Z).

Definition trace := list event.

(** The three SMBus primitives the module calls.  Each one sees the history
    of effects before the call, so a bus can answer differently over time. *)
Record SMBus : Type := {
  write_i2c_block_data : trace -> Z -> Z -> list Z -> io_result unit;
  read_byte : trace -> Z -> io_result Z;
  read_i2c_block_data : trace -> Z -> Z -> io_result (list Z)
}.

(** ** The monad of the module's functions *)

Definition M (A : Type) : Type := SMBus -> trace -> outcome A * trace.

Definition ret {A} (a : A) : M A := fun _ w => (Ok a, w).

Definition raise {A} (e : exn) : M A := fun _ w => (Raise e, w).

Definition bind {A B} (m : M A) (k : A -> M B) : M B :=
  fun bus w =>
    match m bus w with
    | (Ok a, w') => k a bus w'
    | (Raise e, w') => (Raise e, w')
    end.

Notation "x <- m ;; k" := (bind m (fun x => k))
  (at level 100, m at next level, right associativity).
Notation "m ;;; k" := (bind m (fun _ => k))
  (at level 100, right associativity).

(** [try: body except (TypeError, IndexError) as e: raise GrovePiException(e)] *)
Definition try_except_Type_Index {A} (body : M A) : M A :=
  fun bus w =>
    match body bus w with
    | (Raise (Builtin TypeError), w') =>
        (Raise (GrovePiException (OfExn TypeError)), w')
    | (Raise (Builtin IndexError), w') =>
        (Raise (GrovePiException (OfExn IndexError)), w')
    | r => r
    end.

(** [try: body except IOError as e: raise GrovePiException(e)] *)
Definition try_except_IOError {A} (body : M A) : M A :=
  fun bus w =>
    match body bus w with
    | (Raise (Builtin (IOError n)), w') =>
        (Raise (GrovePiException (OfExn (IOError n))), w')
    | r => r
    end.

(** [try: body except ValueError as e: raise GrovePiException(e)] *)
Definition try_except_ValueError {A} (body : M A) : M A :=
  fun bus w =>
    match body bus w with
    | (Raise (Builtin ValueError), w') =>
        (Raise (GrovePiException (OfExn ValueError)), w')
    | r => r
    end.

(** [time.sleep(s)], with [s] given in milliseconds.  The interpreter first
    converts the length to a signed 64-bit count of nanoseconds and raises
    [OverflowError] when it does not fit, whatever its sign; after that a
    negative length is a [ValueError].  The limit, 2^63 - 1 ns, lies
    between 9223372036854 and 9223372036855 ms.  (The lengths of this module
    are constants or whole seconds plus 50 ms, far from the rounding at the
    limit.) *)
Definition sleep (ms : Z) : M unit :=
  fun _ w =>
    if (9223372036854 <? ms) || (ms <? -9223372036854) then
      (Raise (Builtin OverflowError), w)
    else if ms <? 0 then (Raise (Builtin ValueError), w)
    else (Ok tt, w ++ [EvSleep ms]).

(** The lengths [time.sleep] accepts. *)
Definition sleepable (ms : Z) : Prop := 0 <= ms <= 9223372036854.

(** [l[i]] for a non-negative constant index. *)
Definition index (l : list Z) (i : nat) : M Z :=
  match l !! i with
  | Some x => ret x
  | None => raise (Builtin IndexError)
  end.

(** [l[i] = v] for a non-negative constant index. *)
Definition assign (l : list Z) (i : nat) (v : Z) : M (list Z) :=
  match l !! i with
  | Some _ => ret (<[i := v]> l)
  | None => raise (Builtin IndexError)
  end.

(** [l[a:b]] for constant bounds [0 <= a <= b]. *)
Definition slice (l : list Z) (a b : nat) : list Z := take (b - a) (drop a l).

(** ** Module constants *)

Definition I2C_ADDRESS : Z := 4.

Definition dRead_cmd : list Z := [1].
Definition dWrite_cmd : list Z := [2].
Definition aRead_cmd : list Z := [3].
Definition aWrite_cmd : list Z := [4].
Definition pMode_cmd : list Z := [5].
Definition uRead_cmd : list Z := [7].
Definition version_cmd : list Z := [8].
Definition acc_xyz_cmd : list Z := [20].
Definition rtc_getTime_cmd : list Z := [30].
Definition dht_temp_cmd : list Z := [40].

Definition ledbar_init_cmd : list Z := [50].
Definition ledbar_orient_cmd : list Z := [51].
Definition ledbar_level_cmd : list Z := [52].
Definition ledbar_set_one_cmd : list Z := [53].
Definition ledbar_toggle_one_cmd : list Z := [54].
Definition ledbar_set_cmd : list Z := [55].
Definition ledbar_get_cmd : list Z := [56].

Definition fourDigitInit_cmd : list Z := [70].
Definition fourDigitBrightness_cmd : list Z := [71].
Definition fourDigitValue_cmd : list Z := [72].
Definition fourDigitValueZeros_cmd : list Z := [73].
Definition fourDigitIndividualDigit_cmd : list Z := [74].
Definition fourDigitIndividualLeds_cmd : list Z := [75].
Definition fourDigitScore_cmd : list Z := [76].
Definition fourDigitAnalogRead_cmd : list Z := [77].
Definition fourDigitAllOn_cmd : list Z := [78].
Definition fourDigitAllOff_cmd : list Z := [79].

Definition storeColor_cmd : list Z := [90].
Definition chainableRgbLedInit_cmd : list Z := [91].
Definition chainableRgbLedTest_cmd : list Z := [92].
Definition chainableRgbLedSetPattern_cmd : list Z := [93].
Definition chainableRgbLedSetModulo_cmd : list Z := [94].
Definition chainableRgbLedSetLevel_cmd : list Z := [95].

Definition ir_read_cmd : list Z := [21].
Definition ir_recv_pin_cmd : list Z := [22].

Definition dus_sensor_read_cmd : list Z := [10].
Definition dust_sensor_en_cmd : list Z := [14].
Definition dust_sensor_dis_cmd : list Z := [15].
Definition encoder_read_cmd : list Z := [11].
Definition encoder_en_cmd : list Z := [16].
Definition encoder_dis_cmd : list Z := [17].
Definition flow_read_cmd : list Z := [12].
Definition flow_disable_cmd : list Z := [13].
Definition flow_en_cmd : list Z := [18].

Definition unused : Z := 0.

(** ** Transport wrappers *)

Definition write_i2c_block (block : list Z) : M unit :=
  fun bus w =>
    let w' := w ++ [EvWrite I2C_ADDRESS 1 block] in
    match write_i2c_block_data bus w I2C_ADDRESS 1 block with
    | IOOk _ => (Ok tt, w')
    | IOFail n => (Raise (GrovePiException (OfExn (IOError n))), w')
    end.

Definition read_i2c_byte (address : Z) : M Z :=
  fun bus w =>
    let w' := w ++ [EvReadByte address] in
    match read_byte bus w address with
    | IOOk b => (Ok b, w')
    | IOFail n => (Raise (GrovePiException (OfExn (IOError n))), w')
    end.

Definition read_i2c_block (address : Z) : M (list Z) :=
  fun bus w =>
    let w' := w ++ [EvReadBlock address 1] in
    match read_i2c_block_data bus w address 1 with
    | IOOk blk => (Ok blk, w')
    | IOFail n => (Raise (GrovePiException (OfExn (IOError n))), w')
    end.

(** ** GPIO, ultrasonic, version, accelerometer, RTC *)

Definition digital_read (pin : Z) : M Z :=
  write_i2c_block (dRead_cmd ++ [pin; unused; unused]) ;;;
  sleep 100 ;;;
  n <- read_i2c_byte I2C_ADDRESS ;;
  ret n.

Definition digital_write (pin value : Z) : M unit :=
  write_i2c_block (dWrite_cmd ++ [pin; value; unused]).

(** [mode == "OUTPUT"]: equality of an arbitrary value with a string literal. *)
Definition eq_str (v : pyval) (s : string) : bool :=
  match v with
  | VStr t => String.eqb t s
  | _ => false
  end.

Definition pin_mode (pin : Z) (mode : pyval) : M unit :=
  if eq_str mode "OUTPUT"%string then
    write_i2c_block (pMode_cmd ++ [pin; 1; unused])
  else if eq_str mode "INPUT"%string then
    write_i2c_block (pMode_cmd ++ [pin; 0; unused])
  else ret tt.

Definition analog_read (pin : Z) : M Z :=
  write_i2c_block (aRead_cmd ++ [pin; unused; unused]) ;;;
  sleep 100 ;;;
  read_i2c_byte I2C_ADDRESS ;;;
  number <- read_i2c_block I2C_ADDRESS ;;
  sleep 100 ;;;
  n1 <- index number 1 ;;
  n2 <- index number 2 ;;
  ret (n1 * 256 + n2).

Definition analog_write (pin value : Z) : M unit :=
  write_i2c_block (aWrite_cmd ++ [pin; value; unused]).

Definition ultrasonic_read (pin : Z) : M Z :=
  write_i2c_block (uRead_cmd ++ [pin; unused; unused]) ;;;
  sleep 200 ;;;
  read_i2c_byte I2C_ADDRESS ;;;
  number <- read_i2c_block I2C_ADDRESS ;;
  n1 <- index number 1 ;;
  n2 <- index number 2 ;;
  ret (n1 * 256 + n2).

(** ["%s" % n] for an integer [n]. *)
Definition str_of_Z (z : Z) : string := NilZero.string_of_int (Z.to_int z).

Definition version : M string :=
  write_i2c_block (version_cmd ++ [unused; unused; unused]) ;;;
  sleep 100 ;;;
  read_i2c_byte I2C_ADDRESS ;;;
  number <- read_i2c_block I2C_ADDRESS ;;
  n1 <- index number 1 ;;
  n2 <- index number 2 ;;
  n3 <- index number 3 ;;
  ret (str_of_Z n1 ++ "." ++ str_of_Z n2 ++ "." ++ str_of_Z n3)%string.

Definition acc_xyz : M (Z * Z * Z) :=
  write_i2c_block (acc_xyz_cmd ++ [unused; unused; unused]) ;;;
  sleep 100 ;;;
  read_i2c_byte I2C_ADDRESS ;;;
  number <- read_i2c_block I2C_ADDRESS ;;
  n1 <- index number 1 ;;
  number <- (if n1 >? 32 then assign number 1 (- (n1 - 224)) else ret number) ;;
  n2 <- index number 2 ;;
  number <- (if n2 >? 32 then assign number 2 (- (n2 - 224)) else ret number) ;;
  n3 <- index number 3 ;;
  number <- (if n3 >? 32 then assign number 3 (- (n3 - 224)) else ret number) ;;
  x <- index number 1 ;;
  y <- index number 2 ;;
  z <- index number 3 ;;
  ret (x, y, z).

Definition rtc_get_time : M (list Z) :=
  write_i2c_block (rtc_getTime_cmd ++ [unused; unused; unused]) ;;;
  sleep 100 ;;;
  read_i2c_byte I2C_ADDRESS ;;;
  number <- read_i2c_block I2C_ADDRESS ;;
  ret number.

(** ** Grove LED bar *)

Definition ledbar_init (pin orientation : Z) : M unit :=
  write_i2c_block (ledbar_init_cmd ++ [pin; orientation; unused]).

Definition ledbar_orientation (pin orientation : Z) : M unit :=
  write_i2c_block (ledbar_orient_cmd ++ [pin; orientation; unused]).

Definition ledbar_set_level (pin level : Z) : M unit :=
  write_i2c_block (ledbar_level_cmd ++ [pin; level; unused]).

Definition ledbar_set_led (pin led state : Z) : M unit :=
  write_i2c_block (ledbar_set_one_cmd ++ [pin; led; state]).

Definition ledbar_toggle_led (pin led : Z) : M unit :=
  write_i2c_block (ledbar_toggle_one_cmd ++ [pin; led; unused]).

Definition ledbar_set_bits (pin state : Z) : M unit :=
  let byte1 := Z.land state 255 in
  let byte2 := Z.shiftr state 8 in
  write_i2c_block (ledbar_set_cmd ++ [pin; byte1; byte2]).

Definition ledbar_get_bits (pin : Z) : M Z :=
  write_i2c_block (ledbar_get_cmd ++ [pin; unused; unused]) ;;;
  sleep 200 ;;;
  read_i2c_byte 4 ;;;
  block <- read_i2c_block 4 ;;
  b1 <- index block 1 ;;
  b2 <- index block 2 ;;
  ret (Z.lxor b1 (Z.shiftl b2 8)).

(** ** Grove 4 digit display *)

Definition four_digit_init (pin : Z) : M unit :=
  write_i2c_block (fourDigitInit_cmd ++ [pin; unused; unused]).

Definition four_digit_number (pin value : Z) (leading_zero : bool) : M unit :=
  let byte1 := Z.land value 255 in
  let byte2 := Z.shiftr value 8 in
  (if leading_zero then
     write_i2c_block (fourDigitValue_cmd ++ [pin; byte1; byte2])
   else
     write_i2c_block (fourDigitValueZeros_cmd ++ [pin; byte1; byte2])) ;;;
  sleep 50.

Definition four_digit_brightness (pin brightness : Z) : M unit :=
  write_i2c_block (fourDigitBrightness_cmd ++ [pin; brightness; unused]) ;;;
  sleep 50.

Definition four_digit_digit (pin segment value : Z) : M unit :=
  write_i2c_block (fourDigitIndividualDigit_cmd ++ [pin; segment; value]) ;;;
  sleep 50.

Definition four_digit_segment (pin segment leds : Z) : M unit :=
  write_i2c_block (fourDigitIndividualLeds_cmd ++ [pin; segment; leds]) ;;;
  sleep 50.

Definition four_digit_score (pin left right : Z) : M unit :=
  write_i2c_block (fourDigitScore_cmd ++ [pin; left; right]) ;;;
  sleep 50.

(** [time.sleep(duration + .05)] with [duration] in whole seconds. *)
Definition four_digit_monitor (pin analog duration : Z) : M unit :=
  write_i2c_block (fourDigitAnalogRead_cmd ++ [pin; analog; duration]) ;;;
  sleep (duration * 1000 + 50).

Definition four_digit_on (pin : Z) : M unit :=
  write_i2c_block (fourDigitAllOn_cmd ++ [pin; unused; unused]) ;;;
  sleep 50.

Definition four_digit_off (pin : Z) : M unit :=
  write_i2c_block (fourDigitAllOff_cmd ++ [pin; unused; unused]) ;;;
  sleep 50.

(** ** Grove chainable RGB LED *)

Definition store_color (red green blue : Z) : M unit :=
  write_i2c_block (storeColor_cmd ++ [red; green; blue]) ;;;
  sleep 50.

Definition chainable_rgb_led_init (pin num_leds : Z) : M unit :=
  write_i2c_block (chainableRgbLedInit_cmd ++ [pin; num_leds; unused]) ;;;
  sleep 50.

Definition chainable_rgb_led_test (pin num_leds test_color : Z) : M unit :=
  write_i2c_block (chainableRgbLedTest_cmd ++ [pin; num_leds; test_color]) ;;;
  sleep 50.

Definition chainable_rgb_led_pattern (pin pattern which_led : Z) : M unit :=
  write_i2c_block (chainableRgbLedSetPattern_cmd ++ [pin; pattern; which_led]) ;;;
  sleep 50.

Definition chainable_rgb_led_modulo (pin offset divisor : Z) : M unit :=
  write_i2c_block (chainableRgbLedSetModulo_cmd ++ [pin; offset; divisor]) ;;;
  sleep 50.

Definition chainable_rgb_led_set_level (pin level reverse : Z) : M unit :=
  write_i2c_block (chainableRgbLedSetLevel_cmd ++ [pin; level; reverse]) ;;;
  sleep 50.

(** ** Infrared receiver *)

Definition ir_read_signal : M (list Z) :=
  try_except_IOError
    (write_i2c_block (ir_read_cmd ++ [unused; unused; unused]) ;;;
     sleep 100 ;;;
     blk <- read_i2c_block I2C_ADDRESS ;;
     let data_back := slice blk 0 21 in
     d1 <- index data_back 1 ;;
     if negb (d1 =? 255) then ret data_back
     else ret (repeat (-1) 21)).

Definition ir_recv_pin (pin : Z) : M unit :=
  write_i2c_block (ir_recv_pin_cmd ++ [pin; unused; unused]).

(** ** Dust sensor, rotary encoder, flow sensor *)

Definition dust_sensor_en : M unit :=
  write_i2c_block (dust_sensor_en_cmd ++ [unused; unused; unused]) ;;;
  sleep 200.

Definition dust_sensor_dis : M unit :=
  write_i2c_block (dust_sensor_dis_cmd ++ [unused; unused; unused]) ;;;
  sleep 200.

Definition dust_sensor_read : M (list Z) :=
  write_i2c_block (dus_sensor_read_cmd ++ [unused; unused; unused]) ;;;
  sleep 200 ;;;
  blk <- read_i2c_block I2C_ADDRESS ;;
  let data_back := slice blk 0 4 in
  d0 <- index data_back 0 ;;
  if negb (d0 =? 255) then
    d3 <- index data_back 3 ;;
    d2 <- index data_back 2 ;;
    d1 <- index data_back 1 ;;
    let lowpulseoccupancy := d3 * 256 * 256 + d2 * 256 + d1 in
    d0 <- index data_back 0 ;;
    ret [d0; lowpulseoccupancy]
  else raise (GrovePiException NoArgs).

Definition encoder_en : M unit :=
  write_i2c_block (encoder_en_cmd ++ [unused; unused; unused]) ;;;
  sleep 200.

Definition encoder_dis : M unit :=
  write_i2c_block (encoder_dis_cmd ++ [unused; unused; unused]) ;;;
  sleep 200.

Definition encoder_read : M (list Z) :=
  write_i2c_block (encoder_read_cmd ++ [unused; unused; unused]) ;;;
  sleep 200 ;;;
  blk <- read_i2c_block I2C_ADDRESS ;;
  let data_back := slice blk 0 2 in
  d0 <- index data_back 0 ;;
  if negb (d0 =? 255) then
    d0 <- index data_back 0 ;;
    d1 <- index data_back 1 ;;
    ret [d0; d1]
  else raise (GrovePiException NoArgs).

Definition flow_disable : M unit :=
  write_i2c_block (flow_disable_cmd ++ [unused; unused; unused]) ;;;
  sleep 200.

Definition flow_enable : M unit :=
  write_i2c_block (flow_en_cmd ++ [unused; unused; unused]) ;;;
  sleep 200.

Definition flow_read : M (list Z) :=
  write_i2c_block (flow_read_cmd ++ [unused; unused; unused]) ;;;
  sleep 200 ;;;
  blk <- read_i2c_block I2C_ADDRESS ;;
  let data_back := slice blk 0 3 in
  d0 <- index data_back 0 ;;
  if negb (d0 =? 255) then
    d0 <- index data_back 0 ;;
    d2 <- index data_back 2 ;;
    d1 <- index data_back 1 ;;
    ret [d0; d2 * 256 + d1]
  else raise (GrovePiException NoArgs).

(** ** Floating point: the thermistor and the DHT sensor *)

(** [float(n)] and the implicit conversion of an [int] operand: the nearest
    binary64 value, [OverflowError] when the integer is too large. *)
Definition float_of_Z (z : Z) : float :=
  SF2Prim (binary_normalize 53 1024 z 0 false).

Definition py_float (n : Z) : M float :=
  let f := float_of_Z n in
  if is_infinity f then raise (Builtin OverflowError) else ret f.

(** [x / y] on floats: a zero divisor raises. *)
Definition truediv (x y : float) : M float :=
  if PrimFloat.eqb y 0 then raise (Builtin ZeroDivisionError)
  else ret (x / y)%float.

(** [bytearray(l)]: every item must be in [range(256)]. *)
Definition bytearray (l : list Z) : M (list Z) :=
  if forallb (fun b => (0 <=? b) && (b <? 256)) l then ret l
  else raise (Builtin ValueError).

(** The literals [298.15] and [273.15] as the binary64 values Python reads. *)
Definition lit_298_15 : float := 0x1.2a26666666666p+8%float.
Definition lit_273_15 : float := 0x1.1126666666666p+8%float.

(** The B constant chosen by the head of [temp]. *)
Definition b_value_of (model : pyval) : Z :=
  if eq_str model "1.2"%string then 4250
  else if eq_str model "1.1"%string then 4250
  else 3975.

(** The argument of the logarithm in [temp] for the analog value [a]:
    [float(1023 - a) * 10000 / a / 10000]. *)
Definition thermistor_ratio (a : Z) : float :=
  (float_of_Z (1023 - a) * float_of_Z 10000 / float_of_Z a
   / float_of_Z 10000)%float.

(** The temperature [temp] computes from the logarithm [l] and the B
    constant: [1 / (l / b_value + 1 / 298.15) - 273.15]. *)
Definition celsius (l : float) (b_value : Z) : float :=
  (1 / (l / float_of_Z b_value + 1 / lit_298_15) - lit_273_15)%float.

Section Runtime.

(** The pieces of the Python standard library that [temp] and [dht] call and
    that have no counterpart here: the C library's [log] on a finite positive
    argument, the widening of four bytes to a float done by
    [struct.unpack('f', ...)], and the built-in [round(x, ndigits)]. *)
Variable libm_log : float -> float.
Variable unpack_f : list Z -> float.
Variable round_f : float -> Z -> float.

(** [math.log(x)]: a domain error is a [ValueError]; [nan] and [+inf] pass. *)
Definition math_log (x : float) : M float :=
  if is_nan x then ret x
  else if (0 <? x)%float then
    if is_infinity x then ret x
    else
      let r := libm_log x in
      if is_nan r || is_infinity r then raise (Builtin ValueError) else ret r
  else raise (Builtin ValueError).

(** [struct.unpack('f', buf)[0]]: the buffer must hold exactly four bytes. *)
Definition struct_unpack_f (buf : list Z) : M float :=
  if (length buf =? 4)%nat then ret (unpack_f buf)
  else raise (Builtin StructError).

Definition temp (pin : Z) (model : pyval) : M float :=
  let b_value := b_value_of model in
  a <- analog_read pin ;;
  d <- py_float (1023 - a) ;;
  ten_k <- py_float 10000 ;;
  fa <- py_float a ;;
  resistance <- truediv (d * ten_k)%float fa ;;
  ratio <- truediv resistance ten_k ;;
  l <- math_log ratio ;;
  fb <- py_float b_value ;;
  lb <- truediv l fb ;;
  inv <- truediv 1 lit_298_15 ;;
  r <- truediv 1 (lb + inv)%float ;;
  let t := (r - lit_273_15)%float in
  if is_nan t then raise (GrovePiException (OfStr "NaN"))
  else ret t.

(** In [dht] the test [number == -1] compares a list with an integer and is
    never true, so its [raise] is unreachable and does not appear below. *)
Definition dht (pin module_type : Z) : M (list float) :=
  write_i2c_block (dht_temp_cmd ++ [pin; module_type; unused]) ;;;
  sleep 600 ;;;
  number <- try_except_Type_Index
              (read_i2c_byte I2C_ADDRESS ;;;
               number <- read_i2c_block I2C_ADDRESS ;;
               sleep 100 ;;;
               ret number) ;;
  t_val <- bytearray (slice number 1 5) ;;
  h_val <- bytearray (slice number 5 9) ;;
  tf <- struct_unpack_f t_val ;;
  let t := round_f tf 2 in
  hf <- struct_unpack_f h_val ;;
  let hum := round_f hf 2 in
  if is_nan t || is_nan hum then raise (GrovePiException (OfStr "NaN"))
  else try_except_ValueError (ret [t; hum]).

(** ** The device operations as a whole *)

(** One constructor per device operation of the module, with its arguments:
    the 44 public functions from [digital_read] to [flow_read].  The three
    transport wrappers [write_i2c_block], [read_i2c_byte] and
    [read_i2c_block], public as well, are the functions of the same names
    above and are not calls of this type. *)
Inductive call : Type :=
| Digital_read (pin : Z)
| Digital_write (pin value : Z)
| Pin_mode (pin : Z) (mode : pyval)
| Analog_read (pin : Z)
| Analog_write (pin value : Z)
| Temp (pin : Z) (model : pyval)
| Ultrasonic_read (pin : Z)
| Version
| Acc_xyz
| Rtc_get_time
| Dht (pin module_type : Z)
| Ledbar_init (pin orientation : Z)
| Ledbar_orientation (pin orientation : Z)
| Ledbar_set_level (pin level : Z)
| Ledbar_set_led (pin led state : Z)
| Ledbar_toggle_led (pin led : Z)
| Ledbar_set_bits (pin state : Z)
| Ledbar_get_bits (pin : Z)
| Four_digit_init (pin : Z)
| Four_digit_number (pin value : Z) (leading_zero : bool)
| Four_digit_brightness (pin brightness : Z)
| Four_digit_digit (pin segment value : Z)
| Four_digit_segment (pin segment leds : Z)
| Four_digit_score (pin left right : Z)
| Four_digit_monitor (pin analog duration : Z)
| Four_digit_on (pin : Z)
| Four_digit_off (pin : Z)
| Store_color (red green blue : Z)
| Chainable_rgb_led_init (pin num_leds : Z)
| Chainable_rgb_led_test (pin num_leds test_color : Z)
| Chainable_rgb_led_pattern (pin pattern which_led : Z)
| Chainable_rgb_led_modulo (pin offset divisor : Z)
| Chainable_rgb_led_set_level (pin level reverse : Z)
| Ir_read_signal
| Ir_recv_pin (pin : Z)
| Dust_sensor_en
| Dust_sensor_dis
| Dust_sensor_read
| Encoder_en
| Encoder_dis
| Encoder_read
| Flow_disable
| Flow_enable
| Flow_read.

Definition fmap {A B} (f : A -> B) (m : M A) : M B := x <- m ;; ret (f x).

Definition none (m : M unit) : M pyval := fmap (fun _ => VNone) m.

Definition tuple3 (p : Z * Z * Z) : pyval :=
  let '(x, y, z) := p in VTuple [x; y; z].

Definition run (c : call) : M pyval :=
  match c with
  | Digital_read pin => fmap VInt (digital_read pin)
  | Digital_write pin value => none (digital_write pin value)
  | Pin_mode pin mode => none (pin_mode pin mode)
  | Analog_read pin => fmap VInt (analog_read pin)
  | Analog_write pin value => none (analog_write pin value)
  | Temp pin model => fmap VFloat (temp pin model)
  | Ultrasonic_read pin => fmap VInt (ultrasonic_read pin)
  | Version => fmap VStr version
  | Acc_xyz => fmap tuple3 acc_xyz
  | Rtc_get_time => fmap VList rtc_get_time
  | Dht pin module_type => fmap VFloats (dht pin module_type)
  | Ledbar_init pin orientation => none (ledbar_init pin orientation)
  | Ledbar_orientation pin orientation => none (ledbar_orientation pin orientation)
  | Ledbar_set_level pin level => none (ledbar_set_level pin level)
  | Ledbar_set_led pin led state => none (ledbar_set_led pin led state)
  | Ledbar_toggle_led pin led => none (ledbar_toggle_led pin led)
  | Ledbar_set_bits pin state => none (ledbar_set_bits pin state)
  | Ledbar_get_bits pin => fmap VInt (ledbar_get_bits pin)
  | Four_digit_init pin => none (four_digit_init pin)
  | Four_digit_number pin value lz => none (four_digit_number pin value lz)
  | Four_digit_brightness pin b => none (four_digit_brightness pin b)
  | Four_digit_digit pin s v => none (four_digit_digit pin s v)
  | Four_digit_segment pin s l => none (four_digit_segment pin s l)
  | Four_digit_score pin l r => none (four_digit_score pin l r)
  | Four_digit_monitor pin a d => none (four_digit_monitor pin a d)
  | Four_digit_on pin => none (four_digit_on pin)
  | Four_digit_off pin => none (four_digit_off pin)
  | Store_color r g b => none (store_color r g b)
  | Chainable_rgb_led_init pin n => none (chainable_rgb_led_init pin n)
  | Chainable_rgb_led_test pin n t => none (chainable_rgb_led_test pin n t)
  | Chainable_rgb_led_pattern pin p l => none (chainable_rgb_led_pattern pin p l)
  | Chainable_rgb_led_modulo pin o d => none (chainable_rgb_led_modulo pin o d)
  | Chainable_rgb_led_set_level pin l r => none (chainable_rgb_led_set_level pin l r)
  | Ir_read_signal => fmap VList ir_read_signal
  | Ir_recv_pin pin => none (ir_recv_pin pin)
  | Dust_sensor_en => none dust_sensor_en
  | Dust_sensor_dis => none dust_sensor_dis
  | Dust_sensor_read => fmap VList dust_sensor_read
  | Encoder_en => none encoder_en
  | Encoder_dis => none encoder_dis
  | Encoder_read => fmap VList encoder_read
  | Flow_disable => none flow_disable
  | Flow_enable => none flow_enable
  | Flow_read => fmap VList flow_read
  end.

End Runtime.

(** ** Observations on a run *)

(** The blocks handed to the transport's write, in order. *)
Fixpoint writes (w : trace) : list (list Z) :=
  match w with
  | [] => []
  | EvWrite _ _ block :: w' => block :: writes w'
  | _ :: w' => writes w'
  end.

(** A transport that acknowledges every write, answers [x] to every byte
    read and [blk] to every block read. *)
Definition replying_bus (x : Z) (blk : list Z) : SMBus :=
  {| write_i2c_block_data := fun _ _ _ _ => IOOk tt;
     read_byte := fun _ _ => IOOk x;
     read_i2c_block_data := fun _ _ _ => IOOk blk |}.

(** A transport on which every call fails with the same error number. *)
Definition failing_bus (errno : Z) : SMBus :=
  {| write_i2c_block_data := fun _ _ _ _ => IOFail errno;
     read_byte := fun _ _ => IOFail errno;
     read_i2c_block_data := fun _ _ _ => IOFail errno |}.

(** The same transport with every block reply cut down to its first [n]
    items. *)
Definition truncated (n : nat) (bus : SMBus) : SMBus :=
  {| write_i2c_block_data := write_i2c_block_data bus;
     read_byte := read_byte bus;
     read_i2c_block_data := fun w a c =>
       match read_i2c_block_data bus w a c with
       | IOOk blk => IOOk (take n blk)
       | IOFail e => IOFail e
       end |}.

Definition is_byte (v : Z) : Prop := 0 <= v <= 255.

(** Every block the transport returns holds at least [n] items, all bytes. *)
Definition blocks_of_bytes (n : nat) (bus : SMBus) : Prop :=
  forall w a c blk,
    read_i2c_block_data bus w a c = IOOk blk ->
    (n <= length blk)%nat /\ Forall is_byte blk.

(** ** The frame codec and command catalog as the specification words them *)

(** "given an opcode and up to three integer parameters, produce exactly 4
    bytes ... zero-padded when fewer than 3 given". *)
Definition encode_frame (opcode : Z) (params : list Z) : list Z :=
  opcode :: params ++ repeat 0 (3 - length params)%nat.

(** The same with "each parameter [truncated] to its low 8 bits". *)
Definition encode_frame_low8 (opcode : Z) (params : list Z) : list Z :=
  opcode :: map (fun v => v mod 256) (params ++ repeat 0 (3 - length params)%nat).

(** The opcode and the parameter slots of the frame each call sends; [None]
    when the call sends nothing. *)
Definition catalog (c : call) : option (Z * list Z) :=
  match c with
  | Digital_read pin => Some (1, [pin])
  | Digital_write pin value => Some (2, [pin; value])
  | Pin_mode pin mode =>
      if eq_str mode "OUTPUT"%string then Some (5, [pin; 1])
      else if eq_str mode "INPUT"%string then Some (5, [pin; 0])
      else None
  | Analog_read pin => Some (3, [pin])
  | Analog_write pin value => Some (4, [pin; value])
  | Temp pin _ => Some (3, [pin])
  | Ultrasonic_read pin => Some (7, [pin])
  | Version => Some (8, [])
  | Acc_xyz => Some (20, [])
  | Rtc_get_time => Some (30, [])
  | Dht pin module_type => Some (40, [pin; module_type])
  | Ledbar_init pin orientation => Some (50, [pin; orientation])
  | Ledbar_orientation pin orientation => Some (51, [pin; orientation])
  | Ledbar_set_level pin level => Some (52, [pin; level])
  | Ledbar_set_led pin led state => Some (53, [pin; led; state])
  | Ledbar_toggle_led pin led => Some (54, [pin; led])
  | Ledbar_set_bits pin state =>
      Some (55, [pin; Z.land state 255; Z.shiftr state 8])
  | Ledbar_get_bits pin => Some (56, [pin])
  | Four_digit_init pin => Some (70, [pin])
  | Four_digit_brightness pin b => Some (71, [pin; b])
  | Four_digit_number pin value true =>
      Some (72, [pin; Z.land value 255; Z.shiftr value 8])
  | Four_digit_number pin value false =>
      Some (73, [pin; Z.land value 255; Z.shiftr value 8])
  | Four_digit_digit pin s v => Some (74, [pin; s; v])
  | Four_digit_segment pin s l => Some (75, [pin; s; l])
  | Four_digit_score pin l r => Some (76, [pin; l; r])
  | Four_digit_monitor pin a d => Some (77, [pin; a; d])
  | Four_digit_on pin => Some (78, [pin])
  | Four_digit_off pin => Some (79, [pin])
  | Store_color r g b => Some (90, [r; g; b])
  | Chainable_rgb_led_init pin n => Some (91, [pin; n])
  | Chainable_rgb_led_test pin n t => Some (92, [pin; n; t])
  | Chainable_rgb_led_pattern pin p l => Some (93, [pin; p; l])
  | Chainable_rgb_led_modulo pin o d => Some (94, [pin; o; d])
  | Chainable_rgb_led_set_level pin l r => Some (95, [pin; l; r])
  | Ir_read_signal => Some (21, [])
  | Ir_recv_pin pin => Some (22, [pin])
  | Dust_sensor_read => Some (10, [])
  | Encoder_read => Some (11, [])
  | Flow_read => Some (12, [])
  | Flow_disable => Some (13, [])
  | Dust_sensor_en => Some (14, [])
  | Dust_sensor_dis => Some (15, [])
  | Encoder_en => Some (16, [])
  | Encoder_dis => Some (17, [])
  | Flow_enable => Some (18, [])
  end.

Definition frames_of (c : call) : list (list Z) :=
  match catalog c with
  | Some (opcode, params) => [encode_frame opcode params]
  | None => []
  end.

Definition frames_low8_of (c : call) : list (list Z) :=
  match catalog c with
  | Some (opcode, params) => [encode_frame_low8 opcode params]
  | None => []
  end.

(** The integer arguments of a call that are sent in one frame slot each
    ([pin_mode] sends its pin only for a mode it knows), and those that are
    split over two slots. *)
Definition byte_args (c : call) : list Z :=
  match c with
  | Pin_mode pin mode =>
      if eq_str mode "OUTPUT"%string then [pin]
      else if eq_str mode "INPUT"%string then [pin]
      else []
  | Digital_read pin | Analog_read pin | Temp pin _ | Ultrasonic_read pin
  | Ledbar_get_bits pin | Four_digit_init pin
  | Four_digit_on pin | Four_digit_off pin | Ir_recv_pin pin
  | Ledbar_set_bits pin _ | Four_digit_number pin _ _ => [pin]
  | Digital_write a b | Analog_write a b | Dht a b | Ledbar_init a b
  | Ledbar_orientation a b | Ledbar_set_level a b | Ledbar_toggle_led a b
  | Four_digit_brightness a b | Chainable_rgb_led_init a b => [a; b]
  | Ledbar_set_led a b d | Four_digit_digit a b d | Four_digit_segment a b d
  | Four_digit_score a b d | Four_digit_monitor a b d | Store_color a b d
  | Chainable_rgb_led_test a b d | Chainable_rgb_led_pattern a b d
  | Chainable_rgb_led_modulo a b d | Chainable_rgb_led_set_level a b d =>
      [a; b; d]
  | _ => []
  end.

Definition word_args (c : call) : list Z :=
  match c with
  | Ledbar_set_bits _ state => [state]
  | Four_digit_number _ value _ => [value]
  | _ => []
  end.

(** The two slots a split value fills: [value & 255] and [value >> 8]. *)
Definition split_slots (v : Z) : list Z := [Z.land v 255; Z.shiftr v 8].

(** The slot [pin_mode] adds after the pin: 1 for ["OUTPUT"], 0 for
    ["INPUT"]. *)
Definition mode_slot (c : call) : list Z :=
  match c with
  | Pin_mode _ mode =>
      if eq_str mode "OUTPUT"%string then [1]
      else if eq_str mode "INPUT"%string then [0]
      else []
  | _ => []
  end.

(** The parameter slots of a call written from its arguments: each
    single-slot argument as it is, then the two halves of a split value,
    then the mode slot. *)
Definition slots_of (c : call) : list Z :=
  byte_args c ++ flat_map split_slots (word_args c) ++ mode_slot c.

(** How many leading items of the block reply a call looks at; [None] when
    it hands the whole block back ([rtc_get_time]). *)
Definition consumed_prefix (c : call) : option nat :=
  match c with
  | Rtc_get_time => None
  | Dht _ _ => Some 9%nat
  | Ir_read_signal => Some 21%nat
  | _ => Some 5%nat
  end.

(** The calls the error theorem speaks about: everything but [temp], and
    [four_digit_monitor] only with a sleep length that [time.sleep]
    accepts. *)
Definition outside_arithmetic (c : call) : Prop :=
  match c with
  | Temp _ _ => False
  | Four_digit_monitor _ _ duration => sleepable (duration * 1000 + 50)
  | _ => True
  end.

(** What one axis byte [b] of the accelerometer block turns into. *)
Definition folded_axis (b v : Z) : Prop :=
  (b <= 32 -> v = b) /\ (32 < b -> v = - (b - 224)).

(** ** Predicates on computations *)

(** [m] hands exactly the blocks [blks] to the transport's write, whatever
    the transport answers. *)
Definition sends {A} (m : M A) (blks : list (list Z)) : Prop :=
  forall bus w, writes (snd (m bus w)) = writes w ++ blks.

(** The class of an exception, which is what an [except] clause tests. *)
Inductive exn_class : Type :=
| ClassGrovePiException
| ClassIOError
| ClassZeroDivisionError
| ClassValueError
| ClassIndexError
| ClassTypeError
| ClassOverflowError
| ClassStructError.

Definition class_of (e : exn) : exn_class :=
  match e with
  | GrovePiException _ => ClassGrovePiException
  | Builtin (IOError _) => ClassIOError
  | Builtin ZeroDivisionError => ClassZeroDivisionError
  | Builtin ValueError => ClassValueError
  | Builtin IndexError => ClassIndexError
  | Builtin TypeError => ClassTypeError
  | Builtin OverflowError => ClassOverflowError
  | Builtin StructError => ClassStructError
  end.

(** The three shapes in which the module raises its exception: wrapping the
    transport's [IOError], bare, and with the message ["NaN"]. *)
Definition grovepi_shaped (e : exn) : Prop :=
  exists a, e = GrovePiException a
            /\ ((exists n, a = OfExn (IOError n))
                \/ a = NoArgs
                \/ a = OfStr "NaN").

(** On [bus], [m] either returns a value satisfying [Q] or raises a
    [GrovePiException] of one of the three shapes. *)
Definition yields {A} (bus : SMBus) (m : M A) (Q : A -> Prop) : Prop :=
  forall w,
    match fst (m bus w) with
    | Ok a => Q a
    | Raise e => grovepi_shaped e
    end.

(** [m] runs the same on a transport and on its truncation to [n] items. *)
Definition agree {A} (n : nat) (m : M A) : Prop :=
  forall bus w, m (truncated n bus) w = m bus w.

(** ** The fixed schedule of a call *)

(** What a call does after sending its frame when nothing fails: the sleeps
    and the reads, in program order. *)
Definition after_frame (c : call) : list event :=
  match c with
  | Digital_read _ => [EvSleep 100; EvReadByte I2C_ADDRESS]
  | Analog_read _ | Temp _ _ =>
      [EvSleep 100; EvReadByte I2C_ADDRESS; EvReadBlock I2C_ADDRESS 1;
       EvSleep 100]
  | Ultrasonic_read _ =>
      [EvSleep 200; EvReadByte I2C_ADDRESS; EvReadBlock I2C_ADDRESS 1]
  | Version | Acc_xyz | Rtc_get_time =>
      [EvSleep 100; EvReadByte I2C_ADDRESS; EvReadBlock I2C_ADDRESS 1]
  | Dht _ _ =>
      [EvSleep 600; EvReadByte I2C_ADDRESS; EvReadBlock I2C_ADDRESS 1;
       EvSleep 100]
  | Ledbar_get_bits _ => [EvSleep 200; EvReadByte 4; EvReadBlock 4 1]
  | Four_digit_number _ _ _ | Four_digit_brightness _ _
  | Four_digit_digit _ _ _ | Four_digit_segment _ _ _
  | Four_digit_score _ _ _ | Four_digit_on _ | Four_digit_off _
  | Store_color _ _ _ | Chainable_rgb_led_init _ _
  | Chainable_rgb_led_test _ _ _ | Chainable_rgb_led_pattern _ _ _
  | Chainable_rgb_led_modulo _ _ _ | Chainable_rgb_led_set_level _ _ _ =>
      [EvSleep 50]
  | Four_digit_monitor _ _ duration => [EvSleep (duration * 1000 + 50)]
  | Ir_read_signal => [EvSleep 100; EvReadBlock I2C_ADDRESS 1]
  | Dust_sensor_en | Dust_sensor_dis | Encoder_en | Encoder_dis
  | Flow_disable | Flow_enable => [EvSleep 200]
  | Dust_sensor_read | Encoder_read | Flow_read =>
      [EvSleep 200; EvReadBlock I2C_ADDRESS 1]
  | _ => []
  end.

Definition schedule (c : call) : list event :=
  map (EvWrite I2C_ADDRESS 1) (frames_of c) ++ after_frame c.

(** [m] performs the effects [evs] in this order, all of them when it
    returns and a prefix of them when it raises. *)
Definition emits {A} (m : M A) (evs : list event) : Prop :=
  forall bus w,
    match fst (m bus w) with
    | Ok _ => snd (m bus w) = w ++ evs
    | Raise _ => exists k, snd (m bus w) = w ++ take k evs
    end.

(** Where an operation stands: no frame written yet, frame written, or
    frame written and a sleep of at least 0.1 s seen since. *)
Inductive phase : Type :=
| Idle
| Written
| Settled.

(** Every read of the trace happens in phase [Settled]: after a write and a
    later sleep of at least 0.1 s.  A sleep before any write settles
    nothing. *)
Fixpoint reads_settled (p : phase) (t : trace) : bool :=
  match t with
  | [] => true
  | EvWrite _ _ _ :: t' => reads_settled Written t'
  | EvSleep ms :: t' =>
      reads_settled
        (match p with
         | Written => if 100 <=? ms then Settled else Written
         | _ => p
         end) t'
  | EvReadByte _ :: t' | EvReadBlock _ _ :: t' =>
      match p with
      | Settled => reads_settled Settled t'
      | _ => false
      end
  end.

(** The transport calls of a trace all go to device 4 with command byte 1. *)
Definition to_device (e : event) : bool :=
  match e with
  | EvWrite addr cmd _ => (addr =? 4) && (cmd =? 1)
  | EvReadByte addr => addr =? 4
  | EvReadBlock addr cmd => (addr =? 4) && (cmd =? 1)
  | EvSleep _ => true
  end.

Definition is_write (e : event) : bool :=
  match e with EvWrite _ _ _ => true | _ => false end.

Definition is_read_byte (e : event) : bool :=
  match e with EvReadByte _ => true | _ => false end.

Definition is_read_block (e : event) : bool :=
  match e with EvReadBlock _ _ => true | _ => false end.

(** At most one write, one byte read and one block read. *)
Definition single_round_trip (t : trace) : bool :=
  (length (filter is_write t) <=? 1)%nat
  && (length (filter is_read_byte t) <=? 1)%nat
  && (length (filter is_read_block t) <=? 1)%nat.

(** ** What an exception of the module says about its cause *)

(** The transport's answer to the call recorded as event [ev], made after
    the history [w0], was the failure [n]. *)
Definition refused (bus : SMBus) (w0 : trace) (ev : event) (n : Z) : Prop :=
  match ev with
  | EvWrite a c blk => write_i2c_block_data bus w0 a c blk = IOFail n
  | EvReadByte a => read_byte bus w0 a = IOFail n
  | EvReadBlock a c => read_i2c_block_data bus w0 a c = IOFail n
  | EvSleep _ => False
  end.

(** The transport accepted the call recorded as event [ev], made after the
    history [w0]. *)
Definition accepted (bus : SMBus) (w0 : trace) (ev : event) : Prop :=
  match ev with
  | EvWrite a c blk => write_i2c_block_data bus w0 a c blk = IOOk tt
  | EvReadByte a => exists b, read_byte bus w0 a = IOOk b
  | EvReadBlock a c => exists blk, read_i2c_block_data bus w0 a c = IOOk blk
  | EvSleep _ => True
  end.

(** Every transport call among the effects [new], added to the history
    [w0], was accepted. *)
Fixpoint all_accepted (bus : SMBus) (w0 new : trace) : Prop :=
  match new with
  | [] => True
  | ev :: rest => accepted bus w0 ev /\ all_accepted bus (w0 ++ [ev]) rest
  end.

(** The last effect of the run -- [new] is what the run added to the
    history [w] -- is a transport call that failed with [n], the first one
    to fail. *)
Definition failed_last (bus : SMBus) (w new : trace) (n : Z) : Prop :=
  exists before ev,
    new = before ++ [ev]
    /\ all_accepted bus w before
    /\ refused bus (w ++ before) ev n.

(** A sleep, as opposed to a transport call. *)
Definition pause (ev : event) : Prop :=
  match ev with EvSleep _ => True | _ => False end.

(** The last transport call of the run is a block read that the transport
    answered with [blk]; only sleeps follow it. *)
Definition block_read (bus : SMBus) (w new : trace) (blk : list Z) : Prop :=
  exists before after,
    new = before ++ EvReadBlock I2C_ADDRESS 1 :: after
    /\ Forall pause after
    /\ read_i2c_block_data bus (w ++ before) I2C_ADDRESS 1 = IOOk blk.

(** The cause each argument of [GrovePiException] stands for, in a run of
    [c] that started at history [w] and added [new]: a wrapped [IOError] for
    a transport call that failed, the last call made; no argument for a
    block with header 255 read by the dust, encoder or flow read; ["NaN"]
    for a temperature or humidity of [dht] that is not a number after
    rounding.  In the last two the transport accepted every call.  Nothing
    else is raised. *)
Definition cause (unpack_f : list Z -> float) (round_f : float -> Z -> float)
    (bus : SMBus) (c : call) (w new : trace) (e : exn) : Prop :=
  match e with
  | GrovePiException (OfExn (IOError n)) => failed_last bus w new n
  | GrovePiException NoArgs =>
      (c = Dust_sensor_read \/ c = Encoder_read \/ c = Flow_read)
      /\ all_accepted bus w new
      /\ exists blk, block_read bus w new blk /\ blk !! 0%nat = Some 255
  | GrovePiException (OfStr s) =>
      s = "NaN"%string
      /\ all_accepted bus w new
      /\ exists pin module_type blk,
          c = Dht pin module_type
          /\ block_read bus w new blk
          /\ is_nan (round_f (unpack_f (slice blk 1 5)) 2)
             || is_nan (round_f (unpack_f (slice blk 5 9)) 2) = true
  | _ => False
  end.

(** Started after the effects [pre] of a run, all accepted, [m] either
    returns a value and effects, all accepted, that satisfy [Q], or raises
    an exception that [C] accounts for. *)
Definition runs {A} (bus : SMBus) (w : trace) (C : trace -> exn -> Prop)
    (pre : trace) (m : M A) (Q : A -> trace -> Prop) : Prop :=
  all_accepted bus w pre ->
  match m bus (w ++ pre) with
  | (Ok a, w') => exists new, w' = w ++ new /\ all_accepted bus w new /\ Q a new
  | (Raise e, w') => exists new, w' = w ++ new /\ C new e
  end.

(** ** The command-line tool [grovepi-cli.py] *)

Module Cli.

(** The namespace [parse_args] returns: the two pairs of flags, the pin and
    the optional value. *)
Record Namespace : Type := {
  digital : bool;
  analog : bool;
  read : bool;
  write : bool;
  pin : Z;
  value : option Z
}.

(** How the tool ends: [main] returns after printing [stdout];
    [print(e, file=sys.stderr); sys.exit(1)] for a [GrovePiException] [e];
    the usage error with [sys.exit(2)]; or an exception that [main] does not
    catch. *)
Inductive result : Type :=
| Done (stdout : list string)
| ExitError (e : grovepi_args)
| ExitUsage
| Uncaught (e : builtin_exn).

(** [args.value] where an integer is needed.  With [None] the block built by
    the write holds [None]; the transport refuses a block that is not made of
    integers with a [TypeError] before any transfer. *)
Definition int_arg (v : option Z) : M Z :=
  match v with
  | Some z => ret z
  | None => raise (Builtin TypeError)
  end.

Definition main (args : Namespace) : SMBus -> trace -> result * trace :=
  fun bus w =>
    let body : M (list string) :=
      if digital args && write args then
        pin_mode (pin args) (VStr "OUTPUT") ;;;
        v <- int_arg (value args) ;;
        digital_write (pin args) v ;;;
        ret []
      else if digital args && read args then
        pin_mode (pin args) (VStr "INPUT") ;;;
        n <- digital_read (pin args) ;;
        ret [str_of_Z n]
      else if analog args && write args then
        pin_mode (pin args) (VStr "OUTPUT") ;;;
        v <- int_arg (value args) ;;
        analog_write (pin args) v ;;;
        ret []
      else if analog args && read args then
        pin_mode (pin args) (VStr "INPUT") ;;;
        n <- analog_read (pin args) ;;
        ret [str_of_Z n]
      else ret []
    in
    match body bus w with
    | (Ok out, w') => (Done out, w')
    | (Raise (GrovePiException e), w') => (ExitError e, w')
    | (Raise (Builtin e), w') => (Uncaught e, w')
    end.

(** What the script does with the namespace that [parse_args] has returned:
    the check of [args.value] and the call of [main] (the last lines of the
    file).  The exits of [parse_args] itself -- the parser's own usage error
    and its help -- come before and are no part of this definition. *)
Definition script (args : Namespace) : SMBus -> trace -> result * trace :=
  fun bus w =>
    if write args && match value args with None => true | Some _ => false end
    then (ExitUsage, w)
    else main args bus w.

(** What the two required, mutually exclusive groups of the parser
    guarantee. *)
Definition parsed (args : Namespace) : Prop :=
  xorb (digital args) (analog args) = true
  /\ xorb (read args) (write args) = true.

End Cli.

(** * Properties *)

Lemma sleep_ok (ms : Z) (bus : SMBus) (w : trace) :
  sleepable ms -> sleep ms bus w = (Ok tt, w ++ [EvSleep ms]).
Proof.
  intros [Hlo Hhi]. unfold sleep.
  destruct (Z.ltb_spec 9223372036854 ms); [lia |].
  destruct (Z.ltb_spec ms (-9223372036854)); [lia |].
  destruct (Z.ltb_spec ms 0); [lia | reflexivity].
Qed.

(** ** Accelerometer decode *)

Lemma acc_xyz_replying (x b0 b1 b2 b3 : Z) (rest : list Z) :
  let dec := fun b => if b >? 32 then - (b - 224) else b in
  fst (acc_xyz (replying_bus x (b0 :: b1 :: b2 :: b3 :: rest)) []) =
  Ok (dec b1, dec b2, dec b3).
Proof.
  cbv [acc_xyz bind write_i2c_block sleep read_i2c_byte read_i2c_block
       replying_bus write_i2c_block_data read_byte read_i2c_block_data].
  cbn.
  destruct (b1 >? 32); cbn; destruct (b2 >? 32); cbn;
    destruct (b3 >? 32); reflexivity.
Qed.

(** C1 (as amended): in [acc_xyz] each of the three axis bytes [b] (block
    items 1, 2, 3) is returned unchanged when [b <= 32] and as
    [-(b - 224) = 224 - b] when [b > 32]; so byte 224 decodes to 0 and byte
    255 decodes to -31. *)
Theorem acc_xyz_axis_decode (x b0 b1 b2 b3 : Z) (rest : list Z) :
  (exists vx vy vz,
      fst (acc_xyz (replying_bus x (b0 :: b1 :: b2 :: b3 :: rest)) [])
      = Ok (vx, vy, vz)
      /\ folded_axis b1 vx /\ folded_axis b2 vy /\ folded_axis b3 vz)
  /\ fst (acc_xyz (replying_bus x [b0; 224; 255; 32; 0]) []) = Ok (0, -31, 32).
Proof.
  split; [| reflexivity].
  rewrite acc_xyz_replying. cbv zeta.
  eexists _, _, _. split; [reflexivity |].
  unfold folded_axis.
  repeat split; intros; destruct (Z.gtb_spec b1 32);
    destruct (Z.gtb_spec b2 32); destruct (Z.gtb_spec b3 32); lia.
Qed.

(** C1 (as stated) fails: byte 255 decodes to -31, not to 255 - 224 = 31. *)
Lemma acc_xyz_byte_255_is_negative :
  fst (acc_xyz (replying_bus 0 [0; 255; 255; 255; 0]) []) = Ok (-31, -31, -31)
  /\ fst (acc_xyz (replying_bus 0 [0; 255; 255; 255; 0]) [])
     <> Ok (255 - 224, 255 - 224, 255 - 224).
Proof. split; [reflexivity | discriminate]. Qed.

(** ** Sentinel header of the dust, encoder and flow reads *)

(** C6: when the header byte (item 0) of the block is 255, [dust_sensor_read],
    [encoder_read] and [flow_read] raise the bare [GrovePiException] whatever
    the rest of the block holds; when it differs from 255 each returns its
    parsed value. *)
Theorem sentinel_header_255 (x : Z) :
  (forall rest,
      fst (dust_sensor_read (replying_bus x (255 :: rest)) [])
      = Raise (GrovePiException NoArgs)
      /\ fst (encoder_read (replying_bus x (255 :: rest)) [])
         = Raise (GrovePiException NoArgs)
      /\ fst (flow_read (replying_bus x (255 :: rest)) [])
         = Raise (GrovePiException NoArgs))
  /\ (forall d0 d1 d2 d3 rest,
         d0 <> 255 ->
         let blk := d0 :: d1 :: d2 :: d3 :: rest in
         fst (dust_sensor_read (replying_bus x blk) [])
         = Ok [d0; d3 * 256 * 256 + d2 * 256 + d1]
         /\ fst (encoder_read (replying_bus x blk) []) = Ok [d0; d1]
         /\ fst (flow_read (replying_bus x blk) []) = Ok [d0; d2 * 256 + d1]).
Proof.
  split.
  - intros rest. repeat split; reflexivity.
  - intros d0 d1 d2 d3 rest Hd0 blk. subst blk.
    apply Z.eqb_neq in Hd0.
    cbv [dust_sensor_read encoder_read flow_read bind write_i2c_block sleep
         read_i2c_block replying_bus write_i2c_block_data read_i2c_block_data].
    cbn. rewrite Hd0. cbn. repeat split; reflexivity.
Qed.

Lemma sentinel_header_255_witness :
  7 <> 255
  /\ fst (dust_sensor_read (replying_bus 0 [7; 1; 2; 3; 0]) []) = Ok [7; 197121]
  /\ fst (encoder_read (replying_bus 0 [7; 1; 2; 3; 0]) []) = Ok [7; 1]
  /\ fst (flow_read (replying_bus 0 [7; 1; 2; 3; 0]) []) = Ok [7; 513].
Proof.
  split; [lia |].
  apply (proj2 (sentinel_header_255 0) 7 1 2 3 [0]); lia.
Defined.

(** ** LED bar bitmask: split and recombination *)

Lemma split_recombine (v : Z) :
  Z.lxor (Z.land v 255) (Z.shiftl (Z.shiftr v 8) 8) = v.
Proof.
  change 255 with (Z.ones 8).
  apply Z.bits_inj'. intros n Hn.
  rewrite Z.lxor_spec, Z.land_spec.
  destruct (Z.lt_ge_cases n 8) as [Hlt | Hge].
  - rewrite Z.ones_spec_low by lia.
    rewrite Z.shiftl_spec_low by lia.
    now rewrite andb_true_r, xorb_false_r.
  - rewrite Z.ones_spec_high by lia.
    rewrite Z.shiftl_spec by lia.
    rewrite Z.shiftr_spec by lia.
    rewrite andb_false_r, xorb_false_l.
    f_equal. lia.
Qed.

Lemma split_bytes (v : Z) :
  0 <= v <= 65535 -> is_byte (Z.land v 255) /\ is_byte (Z.shiftr v 8).
Proof.
  intros Hv. unfold is_byte.
  assert (Z.land v 255 = v mod 256) as ->
      by (change 255 with (Z.ones 8); now rewrite Z.land_ones by lia).
  rewrite Z.shiftr_div_pow2 by lia.
  change (2 ^ 8) with 256.
  pose proof (Z.mod_pos_bound v 256 ltac:(lia)).
  assert (0 <= v / 256) by (apply Z.div_pos; lia).
  assert (v / 256 < 256) by (apply Z.div_lt_upper_bound; lia).
  lia.
Qed.



(** ** Pin mode *)

(** C9: for every pin and every mode other than the strings ["OUTPUT"] and
    ["INPUT"], [pin_mode] performs no transport call at all (the trace is
    unchanged) and returns normally. *)
Theorem pin_mode_other_mode_is_noop (pin : Z) (mode : pyval)
    (bus : SMBus) (w : trace) :
  mode <> VStr "OUTPUT" -> mode <> VStr "INPUT" ->
  pin_mode pin mode bus w = (Ok tt, w).
Proof.
  intros Hout Hin. unfold pin_mode.
  destruct mode as [| z | f | s | l | l | l]; try reflexivity.
  cbn [eq_str].
  destruct (String.eqb_spec s "OUTPUT") as [-> | _]; [congruence |].
  destruct (String.eqb_spec s "INPUT") as [-> | _]; [congruence |].
  reflexivity.
Qed.

Lemma pin_mode_other_mode_is_noop_witness :
  pin_mode 3 (VStr "output") (failing_bus 5) [] = (Ok tt, []).
Proof.
  apply (pin_mode_other_mode_is_noop 3 (VStr "output") (failing_bus 5) []);
    discriminate.
Defined.

(** ** Thermistor *)

Lemma ratio_scan :
  forallb
    (fun a =>
       negb (is_infinity (float_of_Z (1023 - a)))
       && negb (is_infinity (float_of_Z a))
       && negb (float_of_Z a =? 0)%float
       && negb (is_nan (thermistor_ratio a))
       && (0 <? thermistor_ratio a)%float
       && negb (is_infinity (thermistor_ratio a)))
    (map Z.of_nat (seq 1 1022)) = true.
Proof. vm_compute. reflexivity. Qed.

Lemma temp_in_scale (libm_log : float -> float) (pin : Z) (model : pyval)
    (x b0 b1 b2 : Z) (rest : list Z) :
  1 <= b1 * 256 + b2 <= 1022 ->
  fst (temp libm_log pin model (replying_bus x (b0 :: b1 :: b2 :: rest)) [])
  = let l := libm_log (thermistor_ratio (b1 * 256 + b2)) in
    if is_nan l || is_infinity l then Raise (Builtin ValueError)
    else if ((l / float_of_Z (b_value_of model) + 1 / lit_298_15) =? 0)%float
         then Raise (Builtin ZeroDivisionError)
         else if is_nan (celsius l (b_value_of model))
              then Raise (GrovePiException (OfStr "NaN"))
              else Ok (celsius l (b_value_of model)).
Proof.
  intros Ha.
  pose proof ratio_scan as Hscan. rewrite forallb_forall in Hscan.
  specialize (Hscan (b1 * 256 + b2)).
  assert (Hin : In (b1 * 256 + b2) (map Z.of_nat (seq 1 1022))).
  { apply in_map_iff. exists (Z.to_nat (b1 * 256 + b2)).
    split; [lia |]. apply in_seq. lia. }
  specialize (Hscan Hin). clear Hin.
  repeat match type of Hscan with
         | _ && _ = true => apply andb_prop in Hscan as [Hscan ?]
         end.
  repeat match goal with
         | H : negb _ = true |- _ => apply negb_true_iff in H
         end.
  assert (Hb : is_infinity (float_of_Z (b_value_of model)) = false
               /\ (float_of_Z (b_value_of model) =? 0)%float = false).
  { unfold b_value_of.
    destruct (eq_str model "1.2"); [| destruct (eq_str model "1.1")];
      split; reflexivity. }
  destruct Hb as [Hb1 Hb2].
  set (a := b1 * 256 + b2) in *.
  assert (Hread : exists w',
             analog_read pin (replying_bus x (b0 :: b1 :: b2 :: rest)) []
             = (Ok a, w')) by (eexists; reflexivity).
  destruct Hread as [w' Hread].
  assert (H10 : is_infinity (float_of_Z 10000) = false) by reflexivity.
  assert (H10' : (float_of_Z 10000 =? 0)%float = false) by reflexivity.
  assert (H298 : (lit_298_15 =? 0)%float = false) by reflexivity.
  unfold thermistor_ratio in *.
  unfold temp, celsius. unfold bind at 1. rewrite Hread.
  unfold bind, py_float, truediv, math_log, ret, raise.
  rewrite Hscan, H10, H3, H2, H10', H1, H0, H.
  cbv zeta.
  rewrite Hb1, Hb2, H298.
  repeat match goal with
         | |- context [if ?b then _ else _] => destruct b
         end;
    reflexivity.
Qed.

Lemma b_value_cases (model : pyval) :
  (model = VStr "1.2" /\ b_value_of model = 4250)
  \/ (model = VStr "1.1" /\ b_value_of model = 4250)
  \/ (model <> VStr "1.2" /\ model <> VStr "1.1" /\ b_value_of model = 3975).
Proof.
  unfold b_value_of.
  destruct model as [| z | f | s | l | l | l];
    try (right; right; repeat split; [discriminate | discriminate]).
  cbn [eq_str].
  destruct (String.eqb_spec s "1.2") as [-> | H12]; [left; auto |].
  destruct (String.eqb_spec s "1.1") as [-> | H11]; [right; left; auto |].
  right; right. repeat split; congruence.
Qed.

(** C10: the head of [temp] selects 4250 exactly for the model strings
    ['1.1'] and ['1.2'] and 3975 for every other argument, and [temp]
    computes with the constant selected: for an analog value [a] in 1..1022
    the result is the Steinhart-Hart value of [log((1023 - a) / a)] under
    that constant (or the failure of the logarithm, of a zero divisor, of a
    not-a-number result).  The model reaches [temp] only through the
    constant, and it does reach it: on the mid-scale reading 512, with the
    identity standing in for the library's logarithm, two models give the
    same outcome only if they select the same constant. *)
Theorem temp_computes_with_the_selected_b_value (model : pyval) :
  (b_value_of model = 4250 <-> model = VStr "1.1" \/ model = VStr "1.2")
  /\ (b_value_of model = 3975 <->
      ~ (model = VStr "1.1" \/ model = VStr "1.2"))
  /\ (forall libm_log pin model',
         b_value_of model = b_value_of model' ->
         temp libm_log pin model = temp libm_log pin model')
  /\ (forall libm_log pin x b0 b1 b2 rest,
         1 <= b1 * 256 + b2 <= 1022 ->
         fst (temp libm_log pin model
                (replying_bus x (b0 :: b1 :: b2 :: rest)) [])
         = let l := libm_log (thermistor_ratio (b1 * 256 + b2)) in
           if is_nan l || is_infinity l then Raise (Builtin ValueError)
           else if ((l / float_of_Z (b_value_of model) + 1 / lit_298_15)
                    =? 0)%float
                then Raise (Builtin ZeroDivisionError)
                else if is_nan (celsius l (b_value_of model))
                     then Raise (GrovePiException (OfStr "NaN"))
                     else Ok (celsius l (b_value_of model)))
  /\ (forall model',
         fst (temp (fun x => x) 0 model (replying_bus 0 [0; 2; 0]) [])
         = fst (temp (fun x => x) 0 model' (replying_bus 0 [0; 2; 0]) []) ->
         b_value_of model = b_value_of model').
Proof.
  pose proof (b_value_cases model) as Hcases.
  split; [| split; [| split; [| split]]].
  - split.
    + intros H. destruct Hcases as [[-> _] | [[-> _] | (_ & _ & H')]];
        [now right | now left | lia].
    + intros [-> | ->]; reflexivity.
  - split.
    + intros H [-> | ->]; discriminate H.
    + intros H. destruct Hcases as [[-> _] | [[-> _] | (_ & _ & H')]];
        [exfalso; apply H; now right | exfalso; apply H; now left | exact H'].
  - intros libm_log pin model' Heq. unfold temp. rewrite Heq. reflexivity.
  - intros libm_log pin x b0 b1 b2 rest Ha. now apply temp_in_scale.
  - intros model' H.
    rewrite !temp_in_scale in H by lia.
    assert (Hm : b_value_of model = 4250 \/ b_value_of model = 3975)
      by (destruct Hcases as [[_ ->] | [[_ ->] | (_ & _ & ->)]]; auto).
    assert (Hm' : b_value_of model' = 4250 \/ b_value_of model' = 3975)
      by (destruct (b_value_cases model')
            as [[_ ->] | [[_ ->] | (_ & _ & ->)]]; auto).
    destruct Hm as [Hm | Hm], Hm' as [Hm' | Hm']; rewrite Hm, Hm' in *;
      try reflexivity;
      apply (f_equal (fun o => match o with
                               | Ok t => Prim2SF t
                               | Raise _ => S754_zero false
                               end)) in H;
      vm_compute in H; discriminate H.
Qed.

Lemma temp_computes_with_the_selected_b_value_witness :
  fst (temp (fun x => x) 0 (VStr "1.1") (replying_bus 0 [0; 2; 0]) [])
  = Ok (celsius (thermistor_ratio 512) 4250).
Proof.
  pose proof (temp_computes_with_the_selected_b_value (VStr "1.1"))
    as (_ & _ & _ & H & _).
  rewrite (H (fun x => x) 0 0 0 2 0 []) by lia.
  reflexivity.
Defined.


(** C3, the code at the two end-of-scale readings: an analog value of 0
    leaves [temp] as a [ZeroDivisionError] and an analog value of 1023 as a
    [ValueError] from [math.log]; neither is a [GrovePiException]. *)
Theorem temp_end_of_scale_escapes (libm_log : float -> float)
    (pin : Z) (model : pyval) (x b0 b3 b4 : Z) :
  fst (analog_read pin (replying_bus x [b0; 0; 0; b3; b4]) []) = Ok 0
  /\ fst (temp libm_log pin model (replying_bus x [b0; 0; 0; b3; b4]) [])
     = Raise (Builtin ZeroDivisionError)
  /\ fst (analog_read pin (replying_bus x [b0; 3; 255; b3; b4]) []) = Ok 1023
  /\ fst (temp libm_log pin model (replying_bus x [b0; 3; 255; b3; b4]) [])
     = Raise (Builtin ValueError).
Proof. repeat split; reflexivity. Qed.

(** ** Frames handed to the transport *)

Lemma writes_app (w w' : trace) : writes (w ++ w') = writes w ++ writes w'.
Proof.
  induction w as [| [] w IH]; cbn; rewrite ?IH; reflexivity.
Qed.

Lemma writes_snoc_quiet (w : trace) (e : event) :
  writes [e] = [] -> writes (w ++ [e]) = writes w ++ [].
Proof. intros H. now rewrite writes_app, H. Qed.

Section Sends.

Context {A B : Type}.

Lemma sends_ret (a : A) : sends (ret a) [].
Proof. intros bus w. cbn. now rewrite app_nil_r. Qed.

Lemma sends_raise (e : exn) : sends (@raise A e) [].
Proof. intros bus w. cbn. now rewrite app_nil_r. Qed.

Lemma sends_bind (m : M A) (k : A -> M B) (blks : list (list Z)) :
  sends m blks -> (forall a, sends (k a) []) -> sends (bind m k) blks.
Proof.
  intros Hm Hk bus w. unfold bind.
  specialize (Hm bus w).
  destruct (m bus w) as [[a | e] w']; cbn in *.
  - rewrite (Hk a bus w'), Hm. now rewrite app_nil_r.
  - exact Hm.
Qed.

Lemma sends_try_except_Type_Index (m : M A) (blks : list (list Z)) :
  sends m blks -> sends (try_except_Type_Index m) blks.
Proof.
  intros Hm bus w. unfold try_except_Type_Index.
  specialize (Hm bus w).
  destruct (m bus w) as [[a | [[] | ]] w']; exact Hm.
Qed.

Lemma sends_try_except_IOError (m : M A) (blks : list (list Z)) :
  sends m blks -> sends (try_except_IOError m) blks.
Proof.
  intros Hm bus w. unfold try_except_IOError.
  specialize (Hm bus w).
  destruct (m bus w) as [[a | [[] | ]] w']; exact Hm.
Qed.

Lemma sends_try_except_ValueError (m : M A) (blks : list (list Z)) :
  sends m blks -> sends (try_except_ValueError m) blks.
Proof.
  intros Hm bus w. unfold try_except_ValueError.
  specialize (Hm bus w).
  destruct (m bus w) as [[a | [[] | ]] w']; exact Hm.
Qed.

End Sends.

Lemma sends_write (blk : list Z) : sends (write_i2c_block blk) [blk].
Proof.
  intros bus w. unfold write_i2c_block.
  destruct (write_i2c_block_data bus w I2C_ADDRESS 1 blk); cbn;
    now rewrite writes_app.
Qed.

Lemma sends_read_i2c_byte (address : Z) : sends (read_i2c_byte address) [].
Proof.
  intros bus w. unfold read_i2c_byte.
  destruct (read_byte bus w address); cbn; now apply writes_snoc_quiet.
Qed.

Lemma sends_read_i2c_block (address : Z) : sends (read_i2c_block address) [].
Proof.
  intros bus w. unfold read_i2c_block.
  destruct (read_i2c_block_data bus w address 1); cbn;
    now apply writes_snoc_quiet.
Qed.

Lemma sends_sleep (ms : Z) : sends (sleep ms) [].
Proof.
  intros bus w. unfold sleep.
  destruct (_ || _); cbn; [now rewrite app_nil_r |].
  destruct (ms <? 0); cbn; [now rewrite app_nil_r | now apply writes_snoc_quiet].
Qed.

Lemma sends_index (l : list Z) (i : nat) : sends (index l i) [].
Proof. unfold index. destruct (l !! i); [apply sends_ret | apply sends_raise]. Qed.

Lemma sends_assign (l : list Z) (i : nat) (v : Z) : sends (assign l i v) [].
Proof. unfold assign. destruct (l !! i); [apply sends_ret | apply sends_raise]. Qed.

Lemma sends_py_float (n : Z) : sends (py_float n) [].
Proof.
  unfold py_float. destruct (is_infinity _); [apply sends_raise | apply sends_ret].
Qed.

Lemma sends_truediv (x y : float) : sends (truediv x y) [].
Proof.
  unfold truediv. destruct (PrimFloat.eqb y 0); [apply sends_raise | apply sends_ret].
Qed.

Lemma sends_bytearray (l : list Z) : sends (bytearray l) [].
Proof.
  unfold bytearray. destruct (forallb _ l); [apply sends_ret | apply sends_raise].
Qed.

Lemma sends_math_log (libm_log : float -> float) (x : float) :
  sends (math_log libm_log x) [].
Proof.
  unfold math_log.
  repeat match goal with
         | |- sends (if ?b then _ else _) _ => destruct b
         end; first [apply sends_ret | apply sends_raise].
Qed.

Lemma sends_struct_unpack_f (unpack_f : list Z -> float) (buf : list Z) :
  sends (struct_unpack_f unpack_f buf) [].
Proof.
  unfold struct_unpack_f.
  destruct (length buf =? 4)%nat; [apply sends_ret | apply sends_raise].
Qed.

Create HintDb sends discriminated.

#[local] Hint Resolve sends_ret sends_raise sends_write sends_read_i2c_byte
  sends_read_i2c_block sends_sleep sends_index sends_assign sends_py_float
  sends_truediv sends_bytearray sends_math_log sends_struct_unpack_f : sends.

(** Walks through a computation of the module: a bind sends what its head
    sends, and everything after the head is silent. *)
Ltac walk_sends :=
  repeat first
    [ progress intros
    | solve [auto with sends]
    | apply sends_bind
    | apply sends_try_except_Type_Index
    | apply sends_try_except_IOError
    | apply sends_try_except_ValueError
    | match goal with
      | |- sends (if ?b then _ else _) _ => destruct b
      | |- sends (let '(_, _) := ?p in _) _ => destruct p
      end ].

Lemma sends_analog_read (pin : Z) : sends (analog_read pin) [[3; pin; 0; 0]].
Proof. unfold analog_read. walk_sends. Qed.

Section RunSends.

Variable libm_log : float -> float.
Variable unpack_f : list Z -> float.
Variable round_f : float -> Z -> float.

Lemma sends_temp (pin : Z) (model : pyval) :
  sends (temp libm_log pin model) [[3; pin; 0; 0]].
Proof.
  unfold temp. apply sends_bind; [apply sends_analog_read |]. walk_sends.
Qed.

Lemma run_sends (c : call) :
  sends (run libm_log unpack_f round_f c) (frames_of c).
Proof.
  destruct c; cbn [run]; unfold none, fmap;
    (apply sends_bind; [| intros; apply sends_ret]);
    try apply sends_temp;
    try (unfold frames_of, catalog, pin_mode;
         repeat match goal with
                | |- context [if ?b then _ else _] => destruct b
                end;
         first [ apply sends_ret | apply sends_write ]).
  all: cbv [digital_read analog_read ultrasonic_read version acc_xyz
            rtc_get_time dht ledbar_get_bits four_digit_number
            four_digit_brightness four_digit_digit four_digit_segment
            four_digit_score four_digit_monitor four_digit_on four_digit_off
            store_color chainable_rgb_led_init chainable_rgb_led_test
            chainable_rgb_led_pattern chainable_rgb_led_modulo
            chainable_rgb_led_set_level ir_read_signal dust_sensor_en
            dust_sensor_dis dust_sensor_read encoder_en encoder_dis
            encoder_read flow_disable flow_enable flow_read
            frames_of catalog].
  all: walk_sends.
Qed.

End RunSends.

Lemma catalog_arity (c : call) (opcode : Z) (params : list Z) :
  catalog c = Some (opcode, params) ->
  (length params <= 3)%nat /\ is_byte opcode.
Proof.
  unfold is_byte.
  destruct c; cbn;
    repeat match goal with
           | |- context [if ?b then _ else _] => destruct b
           end;
    intros [= <- <-]; cbn; lia.
Qed.

Lemma frames_of_length (c : call) :
  Forall (fun blk => length blk = 4%nat) (frames_of c).
Proof.
  unfold frames_of.
  destruct (catalog c) as [[opcode params] |] eqn:Hc; [| constructor].
  apply catalog_arity in Hc as [Hlen _].
  repeat constructor. unfold encode_frame. cbn.
  rewrite length_app, repeat_length. lia.
Qed.

(** C8: whatever the transport answers, every call hands the transport's
    write exactly the frame of the catalog -- four items, the opcode first,
    then the parameters in order, zero-padded -- and [pin_mode] with an
    unknown mode hands it nothing; a digital read of pin 2 writes
    [[1; 2; 0; 0]], sleeps 0.1 s and returns the single byte read back. *)
Theorem frame_is_opcode_and_three_slots
    (libm_log : float -> float) (unpack_f : list Z -> float)
    (round_f : float -> Z -> float) (c : call) (bus : SMBus) (w : trace) :
  writes (snd (run libm_log unpack_f round_f c bus w)) = writes w ++ frames_of c
  /\ Forall (fun blk => length blk = 4%nat) (frames_of c)
  /\ frames_of c
     = match catalog c with
       | Some (opcode, params) =>
           [opcode :: params ++ repeat 0 (3 - length params)%nat]
       | None => []
       end
  /\ (forall x blk,
         run libm_log unpack_f round_f (Digital_read 2) (replying_bus x blk) []
         = (Ok (VInt x),
            [EvWrite 4 1 [1; 2; 0; 0]; EvSleep 100; EvReadByte 4])).
Proof.
  split; [apply run_sends |].
  split; [apply frames_of_length |].
  split; [| reflexivity].
  unfold frames_of. destruct (catalog c) as [[opcode params] |]; reflexivity.
Qed.

(** ** No truncation of parameters *)

Lemma low8_bytes (l : list Z) :
  Forall is_byte l -> map (fun v => v mod 256) l = l.
Proof.
  induction 1 as [| v l Hv _ IH]; cbn; [reflexivity |].
  rewrite IH. f_equal. apply Z.mod_small. unfold is_byte in Hv. lia.
Qed.

Lemma catalog_bytes (c : call) (opcode : Z) (params : list Z) :
  Forall is_byte (byte_args c) ->
  Forall (fun v => 0 <= v <= 65535) (word_args c) ->
  catalog c = Some (opcode, params) ->
  Forall is_byte params.
Proof.
  intros Hb Hw.
  destruct c; cbn in *;
    repeat match goal with
           | |- context [if ?b then _ else _] => destruct b
           end;
    intros [= <- <-];
    repeat match goal with
           | H : Forall _ (_ :: _) |- _ => apply Forall_cons in H as [? H]
           end;
    repeat match goal with
           | H : 0 <= ?v <= 65535 |- _ => apply split_bytes in H as [? ?]
           end;
    unfold is_byte in *; repeat constructor; lia.
Qed.

Lemma low8_bytes_iff (l : list Z) :
  map (fun v => v mod 256) l = l <-> Forall is_byte l.
Proof.
  split; [| apply low8_bytes].
  induction l as [| v l IH]; cbn; intros H; [constructor |].
  injection H as Hv Hl. constructor; [| now apply IH].
  pose proof (Z.mod_pos_bound v 256 ltac:(lia)). unfold is_byte. lia.
Qed.

Lemma catalog_slots (c : call) :
  match catalog c with
  | Some (_, params) => params = slots_of c
  | None => slots_of c = []
  end.
Proof.
  destruct c; cbn;
    repeat match goal with
           | |- context [if ?b then _ else _] => destruct b
           end;
    reflexivity.
Qed.

Lemma split_slots_bytes (v : Z) :
  Forall is_byte (split_slots v) <-> 0 <= v <= 65535.
Proof.
  unfold split_slots. split.
  - intros H. apply Forall_cons in H as [_ H]. apply Forall_cons in H as [H _].
    unfold is_byte in H. rewrite Z.shiftr_div_pow2 in H by lia.
    change (2 ^ 8) with 256 in H.
    pose proof (Z.div_mod v 256 ltac:(lia)).
    pose proof (Z.mod_pos_bound v 256 ltac:(lia)). lia.
  - intros H. apply split_bytes in H as [H1 H2].
    constructor; [exact H1 |]. constructor; [exact H2 | constructor].
Qed.

Lemma slots_bytes (c : call) :
  Forall is_byte (slots_of c)
  <-> Forall is_byte (byte_args c)
      /\ Forall (fun v => 0 <= v <= 65535) (word_args c).
Proof.
  unfold slots_of. rewrite !Forall_app.
  assert (Hmode : Forall is_byte (mode_slot c)).
  { destruct c; cbn; try constructor.
    repeat match goal with
           | |- context [if ?b then _ else _] => destruct b
           end;
      repeat constructor; unfold is_byte; lia. }
  assert (Hword : forall l, Forall is_byte (flat_map split_slots l)
                            <-> Forall (fun v => 0 <= v <= 65535) l).
  { induction l as [| v l IH]; cbn [flat_map].
    - split; constructor.
    - rewrite Forall_app, Forall_cons, split_slots_bytes, IH. reflexivity. }
  rewrite Hword. tauto.
Qed.

(** C5 (as amended): nothing is truncated.  The frame a call hands to the
    transport is its opcode followed by its parameter slots, padded with
    zeros; each one-slot parameter is in its slot unchanged, a split value
    fills two slots with [value & 255] and [value >> 8], [pin_mode] adds its
    mode slot.  That frame is the one with [value mod 256] in every slot
    exactly when the caller stays in range: every one-slot parameter in
    0..255 and every split value in 0..65535. *)
Theorem parameters_are_copied_not_truncated
    (libm_log : float -> float) (unpack_f : list Z -> float)
    (round_f : float -> Z -> float) (c : call) (bus : SMBus) (w : trace) :
  writes (snd (run libm_log unpack_f round_f c bus w))
  = writes w ++ frames_of c
  /\ match catalog c with
     | Some (opcode, params) => params = slots_of c
     | None => slots_of c = []
     end
  /\ (writes (snd (run libm_log unpack_f round_f c bus w))
      = writes w ++ frames_low8_of c
      <-> Forall is_byte (byte_args c)
          /\ Forall (fun v => 0 <= v <= 65535) (word_args c)).
Proof.
  pose proof (run_sends libm_log unpack_f round_f c bus w) as Hsends.
  split; [exact Hsends |]. split; [apply catalog_slots |].
  rewrite Hsends, <- slots_bytes.
  pose proof (catalog_slots c) as Hslots.
  unfold frames_of, frames_low8_of.
  destruct (catalog c) as [[opcode params] |].
  - subst params. unfold encode_frame, encode_frame_low8.
    set (pad := repeat 0 (3 - length (slots_of c))%nat).
    assert (Hpad : Forall is_byte pad).
    { subst pad. generalize (3 - length (slots_of c))%nat. intros n.
      induction n; cbn; constructor; [unfold is_byte; lia | assumption]. }
    split.
    + intros H. apply app_inv_head in H. injection H as H.
      symmetry in H. apply low8_bytes_iff, Forall_app in H. tauto.
    + intros H. rewrite (proj2 (low8_bytes_iff _)); [reflexivity |].
      apply Forall_app. now split.
  - rewrite Hslots. split; [constructor | reflexivity].
Qed.


(** C5 (as stated) fails: [digital_write(2, 300)] hands the transport the
    value 300 itself, not [300 mod 256 = 44]. *)
Lemma digital_write_300_is_not_truncated :
  writes (snd (digital_write 2 300 (replying_bus 0 []) [])) = [[2; 2; 300; 0]]
  /\ writes (snd (digital_write 2 300 (replying_bus 0 []) []))
     <> [encode_frame_low8 2 [2; 300]].
Proof. split; [reflexivity | discriminate]. Qed.

(** ** Error outcomes *)

Lemma grovepi_shaped_io (n : Z) :
  grovepi_shaped (GrovePiException (OfExn (IOError n))).
Proof. eexists. split; [reflexivity |]. left. now exists n. Qed.

Lemma grovepi_shaped_bare : grovepi_shaped (GrovePiException NoArgs).
Proof. eexists. split; [reflexivity |]. right. now left. Qed.

Lemma grovepi_shaped_nan : grovepi_shaped (GrovePiException (OfStr "NaN")).
Proof. eexists. split; [reflexivity |]. right. now right. Qed.

Lemma length_slice (l : list Z) (a b : nat) :
  length (slice l a b) = Nat.min (b - a) (length l - a).
Proof. unfold slice. now rewrite length_take, length_drop. Qed.

Lemma Forall_slice (P : Z -> Prop) (l : list Z) (a b : nat) :
  Forall P l -> Forall P (slice l a b).
Proof. intros H. unfold slice. now apply Forall_take, Forall_drop. Qed.

Lemma bytearray_bytes (l : list Z) (bus : SMBus) (w : trace) :
  Forall is_byte l -> bytearray l bus w = (Ok l, w).
Proof.
  intros Hl. unfold bytearray.
  assert (Hf : forallb (fun b => (0 <=? b) && (b <? 256)) l = true).
  { apply forallb_forall. intros v Hv.
    rewrite List.Forall_forall in Hl. specialize (Hl v Hv).
    unfold is_byte in Hl. apply andb_true_intro. split; lia. }
  now rewrite Hf.
Qed.

Section Yields.

Variable bus : SMBus.

Lemma yields_ret {A} (a : A) (Q : A -> Prop) : Q a -> yields bus (ret a) Q.
Proof. intros H w. exact H. Qed.

Lemma yields_raise {A} (e : exn) (Q : A -> Prop) :
  grovepi_shaped e -> yields bus (raise e) Q.
Proof. intros H w. exact H. Qed.

Lemma yields_bind {A B} (m : M A) (k : A -> M B)
    (P : A -> Prop) (Q : B -> Prop) :
  yields bus m P -> (forall a, P a -> yields bus (k a) Q) ->
  yields bus (bind m k) Q.
Proof.
  intros Hm Hk w. unfold bind. specialize (Hm w).
  destruct (m bus w) as [[a | e] w']; cbn in *.
  - apply (Hk a Hm w').
  - exact Hm.
Qed.

Lemma yields_weaken {A} (m : M A) (P Q : A -> Prop) :
  yields bus m P -> (forall a, P a -> Q a) -> yields bus m Q.
Proof.
  intros Hm HPQ w. specialize (Hm w).
  destruct (fst (m bus w)); auto.
Qed.

Lemma yields_write (blk : list Z) :
  yields bus (write_i2c_block blk) (fun _ => True).
Proof.
  intros w. unfold write_i2c_block.
  destruct (write_i2c_block_data bus w I2C_ADDRESS 1 blk); cbn;
    [exact I | apply grovepi_shaped_io].
Qed.

Lemma yields_read_i2c_byte (address : Z) :
  yields bus (read_i2c_byte address) (fun _ => True).
Proof.
  intros w. unfold read_i2c_byte.
  destruct (read_byte bus w address); cbn; [exact I | apply grovepi_shaped_io].
Qed.

Lemma yields_read_i2c_block (n : nat) (address : Z) :
  blocks_of_bytes n bus ->
  yields bus (read_i2c_block address)
         (fun blk => (n <= length blk)%nat /\ Forall is_byte blk).
Proof.
  intros Hbus w. unfold read_i2c_block.
  destruct (read_i2c_block_data bus w address 1) eqn:Hr; cbn;
    [exact (Hbus _ _ _ _ Hr) | apply grovepi_shaped_io].
Qed.

Lemma yields_sleep (ms : Z) :
  sleepable ms -> yields bus (sleep ms) (fun _ => True).
Proof.
  intros Hms w. now rewrite sleep_ok.
Qed.

Lemma yields_index (l : list Z) (i : nat) :
  (i < length l)%nat -> yields bus (index l i) (fun _ => True).
Proof.
  intros Hi w. unfold index.
  destruct (l !! i) eqn:Hl; [exact I |].
  apply lookup_ge_None_1 in Hl. lia.
Qed.

Lemma yields_assign (l : list Z) (i : nat) (v : Z) :
  (i < length l)%nat ->
  yields bus (assign l i v) (fun l' => length l' = length l).
Proof.
  intros Hi w. unfold assign.
  destruct (l !! i) eqn:Hl; [apply length_insert |].
  apply lookup_ge_None_1 in Hl. lia.
Qed.

Lemma yields_bytearray (l : list Z) :
  Forall is_byte l -> yields bus (bytearray l) (fun l' => l' = l).
Proof.
  intros Hl w. unfold bytearray.
  destruct (forallb _ l) eqn:Hf; [reflexivity |].
  exfalso. rewrite <- not_true_iff_false in Hf. apply Hf.
  apply forallb_forall. intros v Hv.
  rewrite List.Forall_forall in Hl. specialize (Hl v Hv).
  unfold is_byte in Hl. apply andb_true_intro. split; lia.
Qed.

Lemma yields_struct_unpack_f (unpack_f : list Z -> float) (buf : list Z) :
  length buf = 4%nat ->
  yields bus (struct_unpack_f unpack_f buf) (fun _ => True).
Proof.
  intros Hlen w. unfold struct_unpack_f. rewrite Hlen. exact I.
Qed.

Lemma yields_try_except_Type_Index {A} (m : M A) (Q : A -> Prop) :
  yields bus m Q -> yields bus (try_except_Type_Index m) Q.
Proof.
  intros Hm w. unfold try_except_Type_Index. specialize (Hm w).
  destruct (m bus w) as [[a | [[] | g]] w']; cbn in *; try exact Hm;
    destruct Hm as (a & [=] & _).
Qed.

Lemma yields_try_except_IOError {A} (m : M A) (Q : A -> Prop) :
  yields bus m Q -> yields bus (try_except_IOError m) Q.
Proof.
  intros Hm w. unfold try_except_IOError. specialize (Hm w).
  destruct (m bus w) as [[a | [[] | g]] w']; cbn in *; try exact Hm;
    destruct Hm as (a & [=] & _).
Qed.

Lemma yields_try_except_ValueError {A} (m : M A) (Q : A -> Prop) :
  yields bus m Q -> yields bus (try_except_ValueError m) Q.
Proof.
  intros Hm w. unfold try_except_ValueError. specialize (Hm w).
  destruct (m bus w) as [[a | [[] | g]] w']; cbn in *; try exact Hm;
    destruct Hm as (a & [=] & _).
Qed.

Lemma yields_fmap {A B} (f : A -> B) (m : M A) (Q : A -> Prop) :
  yields bus m Q -> yields bus (fmap f m) (fun _ => True).
Proof.
  intros Hm. unfold fmap. eapply yields_bind; [exact Hm |].
  intros a _. now apply yields_ret.
Qed.

(** A fire-and-forget write followed by a fixed sleep. *)
Lemma yields_write_then_sleep (blk : list Z) (ms : Z) :
  sleepable ms -> yields bus (write_i2c_block blk ;;; sleep ms) (fun _ => True).
Proof.
  intros Hms. eapply yields_bind; [apply yields_write |].
  intros _ _. now apply yields_sleep.
Qed.

(** The head of every read: write the frame, sleep, then go on. *)
Lemma yields_write_sleep_then {A} (blk : list Z) (ms : Z) (k : M A)
    (Q : A -> Prop) :
  sleepable ms -> yields bus k Q ->
  yields bus (write_i2c_block blk ;;; sleep ms ;;; k) Q.
Proof.
  intros Hms Hk. eapply yields_bind; [apply yields_write |].
  intros _ _. eapply yields_bind; [now apply yields_sleep |].
  intros _ _. exact Hk.
Qed.

(** Discarding one byte, then reading a block. *)
Lemma yields_byte_then_block {A} (n : nat) (a1 a2 : Z)
    (k : list Z -> M A) (Q : A -> Prop) :
  blocks_of_bytes n bus ->
  (forall blk, (n <= length blk)%nat -> Forall is_byte blk ->
               yields bus (k blk) Q) ->
  yields bus (read_i2c_byte a1 ;;; blk <- read_i2c_block a2 ;; k blk) Q.
Proof.
  intros Hbus Hk. eapply yields_bind; [apply yields_read_i2c_byte |].
  intros _ _. eapply yields_bind; [eapply yields_read_i2c_block; exact Hbus |].
  intros blk [Hlen Hbytes]. now apply Hk.
Qed.

Lemma yields_block_then {A} (n : nat) (a : Z)
    (k : list Z -> M A) (Q : A -> Prop) :
  blocks_of_bytes n bus ->
  (forall blk, (n <= length blk)%nat -> Forall is_byte blk ->
               yields bus (k blk) Q) ->
  yields bus (blk <- read_i2c_block a ;; k blk) Q.
Proof.
  intros Hbus Hk. eapply yields_bind; [eapply yields_read_i2c_block; exact Hbus |].
  intros blk [Hlen Hbytes]. now apply Hk.
Qed.

Lemma yields_index_then {A} (l : list Z) (i : nat) (k : Z -> M A)
    (Q : A -> Prop) :
  (i < length l)%nat -> (forall x, yields bus (k x) Q) ->
  yields bus (x <- index l i ;; k x) Q.
Proof.
  intros Hi Hk. eapply yields_bind; [now apply yields_index |].
  intros x _. apply Hk.
Qed.

End Yields.

Ltac walk_yields :=
  repeat first
    [ progress intros
    | apply yields_ret; exact I
    | apply yields_raise;
      first [apply grovepi_shaped_bare | apply grovepi_shaped_nan]
    | apply yields_write
    | apply yields_write_then_sleep; unfold sleepable; lia
    | apply yields_write_sleep_then; [unfold sleepable; lia |]
    | eapply yields_byte_then_block; [eassumption |]
    | eapply yields_block_then; [eassumption |]
    | apply yields_index_then; [rewrite ?length_slice; lia |]
    | apply yields_try_except_IOError
    | eapply yields_bind; [apply yields_sleep; unfold sleepable; lia |]
    | eapply yields_bind; [apply yields_read_i2c_byte |]
    | match goal with
      | |- yields _ (if ?b then _ else _) _ => destruct b
      | |- yields _ (bind (if ?b then _ else _) _) _ => destruct b
      end ].


Lemma replying_bus_blocks (n : nat) (x : Z) (blk : list Z) :
  (n <= length blk)%nat -> Forall is_byte blk ->
  blocks_of_bytes n (replying_bus x blk).
Proof. intros Hlen Hbytes w a c blk' [= <-]. now split. Qed.

(** ** The cause behind each exception *)

Lemma all_accepted_snoc (bus : SMBus) (w pre : trace) (ev : event) :
  all_accepted bus w pre -> accepted bus (w ++ pre) ev ->
  all_accepted bus w (pre ++ [ev]).
Proof.
  revert w. induction pre as [| e pre IH]; intros w Hpre Hev; cbn in *.
  - rewrite app_nil_r in Hev. now split.
  - destruct Hpre as [He Hpre]. split; [exact He |].
    apply IH; [exact Hpre |]. now rewrite <- app_assoc.
Qed.

Section Runs.

Variable bus : SMBus.
Variable w : trace.
Variable C : trace -> exn -> Prop.
Hypothesis C_refused :
  forall before ev n,
    all_accepted bus w before ->
    refused bus (w ++ before) ev n ->
    C (before ++ [ev]) (GrovePiException (OfExn (IOError n))).
Hypothesis C_builtin : forall new e, ~ C new (Builtin e).

Lemma runs_ret {A} (pre : trace) (a : A) (Q : A -> trace -> Prop) :
  Q a pre -> runs bus w C pre (ret a) Q.
Proof. intros H Hpre. unfold ret. now exists pre. Qed.

Lemma runs_raise {A} (pre : trace) (e : exn) (Q : A -> trace -> Prop) :
  (all_accepted bus w pre -> C pre e) -> runs bus w C pre (raise e) Q.
Proof. intros H Hpre. unfold raise. exists pre. auto. Qed.

Lemma runs_bind {A B} (pre : trace) (m : M A) (k : A -> M B)
    (P : A -> trace -> Prop) (Q : B -> trace -> Prop) :
  runs bus w C pre m P ->
  (forall a new, P a new -> runs bus w C new (k a) Q) ->
  runs bus w C pre (bind m k) Q.
Proof.
  unfold runs, bind. intros Hm Hk Hpre. specialize (Hm Hpre).
  destruct (m bus (w ++ pre)) as [[a | e] w'].
  - destruct Hm as (new & -> & Hnew & HP). apply (Hk a new HP Hnew).
  - exact Hm.
Qed.

Lemma runs_write (pre : trace) (blk : list Z) :
  runs bus w C pre (write_i2c_block blk)
       (fun _ new => new = pre ++ [EvWrite I2C_ADDRESS 1 blk]).
Proof.
  unfold runs, write_i2c_block. intros Hpre.
  destruct (write_i2c_block_data bus (w ++ pre) I2C_ADDRESS 1 blk) as [[] |]
    eqn:Hw;
    exists (pre ++ [EvWrite I2C_ADDRESS 1 blk]);
    (split; [now rewrite app_assoc |]).
  - split; [now apply all_accepted_snoc | reflexivity].
  - now apply C_refused.
Qed.

Lemma runs_read_i2c_byte (pre : trace) (address : Z) :
  runs bus w C pre (read_i2c_byte address)
       (fun _ new => new = pre ++ [EvReadByte address]).
Proof.
  unfold runs, read_i2c_byte. intros Hpre.
  destruct (read_byte bus (w ++ pre) address) eqn:Hr;
    exists (pre ++ [EvReadByte address]);
    (split; [now rewrite app_assoc |]).
  - split; [| reflexivity]. apply all_accepted_snoc; [exact Hpre |].
    cbn. eauto.
  - now apply C_refused.
Qed.

Lemma runs_read_i2c_block (n : nat) (pre : trace) (address : Z) :
  blocks_of_bytes n bus ->
  runs bus w C pre (read_i2c_block address)
       (fun blk new =>
          new = pre ++ [EvReadBlock address 1]
          /\ read_i2c_block_data bus (w ++ pre) address 1 = IOOk blk
          /\ (n <= length blk)%nat /\ Forall is_byte blk).
Proof.
  intros Hbus. unfold runs, read_i2c_block. intros Hpre.
  destruct (read_i2c_block_data bus (w ++ pre) address 1) eqn:Hr;
    exists (pre ++ [EvReadBlock address 1]);
    (split; [now rewrite app_assoc |]).
  - split; [apply all_accepted_snoc; [exact Hpre | cbn; eauto] |].
    split; [reflexivity |]. split; [reflexivity |]. exact (Hbus _ _ _ _ Hr).
  - now apply C_refused.
Qed.

Lemma runs_sleep (pre : trace) (ms : Z) :
  sleepable ms ->
  runs bus w C pre (sleep ms) (fun _ new => new = pre ++ [EvSleep ms]).
Proof.
  intros Hms Hpre. rewrite sleep_ok by exact Hms.
  exists (pre ++ [EvSleep ms]). split; [now rewrite app_assoc |].
  split; [| reflexivity]. now apply all_accepted_snoc.
Qed.

Lemma runs_index (pre : trace) (l : list Z) (i : nat) :
  (i < length l)%nat ->
  runs bus w C pre (index l i) (fun x new => new = pre /\ l !! i = Some x).
Proof.
  intros Hi. unfold index.
  destruct (l !! i) eqn:Hl; [now apply runs_ret |].
  apply lookup_ge_None_1 in Hl. lia.
Qed.

Lemma runs_assign (pre : trace) (l : list Z) (i : nat) (v : Z) :
  (i < length l)%nat ->
  runs bus w C pre (assign l i v)
       (fun l' new => new = pre /\ length l' = length l).
Proof.
  intros Hi. unfold assign.
  destruct (l !! i) eqn:Hl;
    [apply runs_ret; split; [reflexivity | apply length_insert] |].
  apply lookup_ge_None_1 in Hl. lia.
Qed.

Lemma runs_bytearray (pre : trace) (l : list Z) :
  Forall is_byte l ->
  runs bus w C pre (bytearray l) (fun l' new => new = pre /\ l' = l).
Proof.
  intros Hl Hpre. rewrite bytearray_bytes by exact Hl.
  now exists pre.
Qed.

Lemma runs_struct_unpack_f (unpack_f : list Z -> float) (pre : trace)
    (buf : list Z) :
  length buf = 4%nat ->
  runs bus w C pre (struct_unpack_f unpack_f buf)
       (fun x new => new = pre /\ x = unpack_f buf).
Proof.
  intros Hlen. unfold struct_unpack_f. rewrite Hlen. now apply runs_ret.
Qed.

Lemma runs_try_except_Type_Index {A} (pre : trace) (m : M A)
    (Q : A -> trace -> Prop) :
  runs bus w C pre m Q -> runs bus w C pre (try_except_Type_Index m) Q.
Proof.
  unfold runs, try_except_Type_Index. intros Hm Hpre. specialize (Hm Hpre).
  destruct (m bus (w ++ pre)) as [[a | [e | g]] w']; try exact Hm.
  destruct Hm as (new & _ & HC). now apply C_builtin in HC.
Qed.

Lemma runs_try_except_IOError {A} (pre : trace) (m : M A)
    (Q : A -> trace -> Prop) :
  runs bus w C pre m Q -> runs bus w C pre (try_except_IOError m) Q.
Proof.
  unfold runs, try_except_IOError. intros Hm Hpre. specialize (Hm Hpre).
  destruct (m bus (w ++ pre)) as [[a | [e | g]] w']; try exact Hm.
  destruct Hm as (new & _ & HC). now apply C_builtin in HC.
Qed.

Lemma runs_try_except_ValueError {A} (pre : trace) (m : M A)
    (Q : A -> trace -> Prop) :
  runs bus w C pre m Q -> runs bus w C pre (try_except_ValueError m) Q.
Proof.
  unfold runs, try_except_ValueError. intros Hm Hpre. specialize (Hm Hpre).
  destruct (m bus (w ++ pre)) as [[a | [e | g]] w']; try exact Hm.
  destruct Hm as (new & _ & HC). now apply C_builtin in HC.
Qed.

Lemma runs_weaken {A} (pre : trace) (m : M A) (P Q : A -> trace -> Prop) :
  runs bus w C pre m P -> (forall a new, P a new -> Q a new) ->
  runs bus w C pre m Q.
Proof.
  unfold runs. intros Hm HPQ Hpre. specialize (Hm Hpre).
  destruct (m bus (w ++ pre)) as [[a | e] w']; [| exact Hm].
  destruct Hm as (new & -> & Hnew & HP). exists new. auto.
Qed.

End Runs.

Lemma lookup_slice_0 (l : list Z) (b i : nat) :
  (i < b)%nat -> slice l 0 b !! i = l !! i.
Proof.
  intros Hi. unfold slice. rewrite drop_0, Nat.sub_0_r.
  now apply lookup_take_lt.
Qed.

Section Causes.

Variable libm_log : float -> float.
Variable unpack_f : list Z -> float.
Variable round_f : float -> Z -> float.
Variable bus : SMBus.
Variable w : trace.
Hypothesis Hbus : blocks_of_bytes 9 bus.

Lemma cause_refused (c : call) (before : trace) (ev : event) (n : Z) :
  all_accepted bus w before ->
  refused bus (w ++ before) ev n ->
  cause unpack_f round_f bus c w (before ++ [ev])
        (GrovePiException (OfExn (IOError n))).
Proof. intros Hb H. cbn. now exists before, ev. Qed.

Lemma cause_builtin (c : call) (new : trace) (e : builtin_exn) :
  ~ cause unpack_f round_f bus c w new (Builtin e).
Proof. intros []. Qed.

Lemma block_read_here (before after : trace) (blk : list Z) :
  read_i2c_block_data bus (w ++ before) I2C_ADDRESS 1 = IOOk blk ->
  Forall pause after ->
  block_read bus w ((before ++ [EvReadBlock I2C_ADDRESS 1]) ++ after) blk.
Proof.
  intros H Hafter. exists before, after. split; [| now split].
  now rewrite <- app_assoc.
Qed.

Ltac runs_prim :=
  first
    [ apply runs_write; apply cause_refused
    | apply runs_read_i2c_byte; apply cause_refused
    | eapply runs_read_i2c_block; [apply cause_refused | exact Hbus]
    | apply runs_sleep; first [assumption | unfold sleepable; lia]
    | apply runs_index; rewrite ?length_slice; lia ].

Ltac runs_intro :=
  let a := fresh "a" in
  let new := fresh "new" in
  let H := fresh "H" in
  intros a new H; cbv beta in H;
  repeat match type of H with
         | _ /\ _ => let H1 := fresh "H" in destruct H as [H1 H]
         end;
  subst.

Ltac walk_runs :=
  repeat first
    [ apply runs_ret; exact I
    | apply runs_try_except_IOError; [apply cause_builtin |]
    | eapply runs_bind; [runs_prim | runs_intro]
    | eapply runs_weaken; [runs_prim | intros; exact I]
    | match goal with
      | |- runs _ _ _ _ (bind (if ?b then _ else _) _) _ => destruct b
      | |- runs _ _ _ _ (if ?b then _ else _) _ => destruct b
      end ].

Lemma runs_acc_xyz :
  runs bus w (cause unpack_f round_f bus Acc_xyz w) [] acc_xyz
       (fun _ _ => True).
Proof.
  unfold acc_xyz. do 5 (eapply runs_bind; [runs_prim | runs_intro]).
  assert (Hfold : forall pre (l : list Z) (i : nat) (b v : Z),
             (i < length l)%nat ->
             runs bus w (cause unpack_f round_f bus Acc_xyz w) pre
                  (if b >? 32 then assign l i v else ret l)
                  (fun l' new => new = pre /\ length l' = length l)).
  { intros pre l i b v Hi. destruct (b >? 32);
      [now apply runs_assign | now apply runs_ret]. }
  eapply runs_bind; [apply Hfold; lia | runs_intro].
  eapply runs_bind; [apply runs_index; lia | runs_intro].
  eapply runs_bind; [apply Hfold; lia | runs_intro].
  eapply runs_bind; [apply runs_index; lia | runs_intro].
  eapply runs_bind; [apply Hfold; lia | runs_intro].
  eapply runs_bind; [apply runs_index; lia | runs_intro].
  eapply runs_bind; [apply runs_index; lia | runs_intro].
  eapply runs_bind; [apply runs_index; lia | runs_intro].
  now apply runs_ret.
Qed.

Lemma runs_dht (pin module_type : Z) :
  runs bus w (cause unpack_f round_f bus (Dht pin module_type) w) []
       (dht unpack_f round_f pin module_type) (fun _ _ => True).
Proof.
  unfold dht. walk_runs.
  eapply runs_bind
    with (P := fun blk new =>
                 block_read bus w new blk
                 /\ (9 <= length blk)%nat /\ Forall is_byte blk).
  - apply runs_try_except_Type_Index; [apply cause_builtin |].
    eapply runs_bind; [runs_prim | runs_intro].
    eapply runs_bind; [runs_prim | runs_intro].
    eapply runs_bind; [runs_prim | runs_intro].
    apply runs_ret. split; [| now split].
    apply block_read_here; [assumption |]. now repeat constructor.
  - intros number new (Hread & Hlen & Hbytes).
    eapply runs_bind;
      [apply runs_bytearray, Forall_slice, Hbytes | runs_intro].
    eapply runs_bind;
      [apply runs_bytearray, Forall_slice, Hbytes | runs_intro].
    eapply runs_bind;
      [apply runs_struct_unpack_f; rewrite length_slice; lia | runs_intro].
    eapply runs_bind;
      [apply runs_struct_unpack_f; rewrite length_slice; lia | runs_intro].
    cbv zeta.
    destruct (is_nan _ || is_nan _) eqn:Hnan.
    + apply runs_raise. intros Hnew. cbn. split; [reflexivity |].
      split; [exact Hnew |]. now exists pin, module_type, number.
    + apply runs_try_except_ValueError; [apply cause_builtin |].
      now apply runs_ret.
Qed.

Lemma runs_sentinel_reads (c : call) :
  c = Dust_sensor_read \/ c = Encoder_read \/ c = Flow_read ->
  runs bus w (cause unpack_f round_f bus c w) []
       (run libm_log unpack_f round_f c) (fun _ _ => True).
Proof.
  intros Hc.
  assert (Hraise : forall before blk d0,
             read_i2c_block_data bus (w ++ before) I2C_ADDRESS 1 = IOOk blk ->
             blk !! 0%nat = Some d0 -> negb (d0 =? 255) = false ->
             runs bus w (cause unpack_f round_f bus c w)
                  (before ++ [EvReadBlock I2C_ADDRESS 1])
                  (@raise (list Z) (GrovePiException NoArgs))
                  (fun _ _ => True)).
  { intros before blk d0 Hr Hd0 H255. apply runs_raise. intros Hnew. cbn.
    split; [exact Hc |]. split; [exact Hnew |]. exists blk. split.
    - rewrite <- (app_nil_r (before ++ _)). now apply block_read_here.
    - apply negb_false_iff, Z.eqb_eq in H255. now subst. }
  destruct Hc as [-> | [-> | ->]]; cbn [run]; unfold fmap;
    (apply runs_bind with (P := fun _ _ => True);
       [| intros; now apply runs_ret]);
    cbv [dust_sensor_read encoder_read flow_read];
    do 4 (eapply runs_bind; [runs_prim | runs_intro]);
    match goal with
    | |- runs _ _ _ _ (if negb (?d =? 255) then _ else _) _ =>
        destruct (negb (d =? 255)) eqn:H255
    end.
  all: try (eapply Hraise; [eassumption | | exact H255];
            match goal with
            | H : slice _ 0 _ !! _ = Some _ |- _ =>
                rewrite lookup_slice_0 in H by lia; exact H
            end).
  all: walk_runs.
Qed.

Lemma run_runs (c : call) :
  outside_arithmetic c ->
  runs bus w (cause unpack_f round_f bus c w) []
       (run libm_log unpack_f round_f c) (fun _ _ => True).
Proof.
  intros Hc.
  destruct c;
    try (apply runs_sentinel_reads; auto; fail);
    try (now destruct Hc);
    cbn [run]; unfold none, fmap;
    (apply runs_bind with (P := fun _ _ => True);
       [| intros; now apply runs_ret]);
    try apply runs_acc_xyz; try apply runs_dht.
  all: cbv [digital_read digital_write pin_mode analog_read analog_write
            ultrasonic_read version rtc_get_time ledbar_init
            ledbar_orientation ledbar_set_level ledbar_set_led
            ledbar_toggle_led ledbar_set_bits ledbar_get_bits
            four_digit_init four_digit_number four_digit_brightness
            four_digit_digit four_digit_segment four_digit_score
            four_digit_monitor four_digit_on four_digit_off store_color
            chainable_rgb_led_init chainable_rgb_led_test
            chainable_rgb_led_pattern chainable_rgb_led_modulo
            chainable_rgb_led_set_level ir_read_signal ir_recv_pin
            dust_sensor_en dust_sensor_dis encoder_en
            encoder_dis flow_disable flow_enable].
  all: cbn [outside_arithmetic] in Hc.
  all: walk_runs.
Qed.

End Causes.




(** ** How much of the block reply is looked at *)

Lemma slice_take (l : list Z) (n a b : nat) :
  (a <= b)%nat -> (b <= n)%nat -> slice (take n l) a b = slice l a b.
Proof.
  intros Hab Hbn. unfold slice.
  replace n with (a + (n - a))%nat at 1 by lia.
  rewrite <- take_drop_commute, take_take.
  f_equal. lia.
Qed.


Section Agree.

Context {A B : Type}.
Variable n : nat.

Lemma agree_ret (a : A) : agree n (ret a).
Proof. intros bus w. reflexivity. Qed.

Lemma agree_raise (e : exn) : agree n (@raise A e).
Proof. intros bus w. reflexivity. Qed.

Lemma agree_bind (m : M A) (k : A -> M B) :
  agree n m -> (forall a, agree n (k a)) -> agree n (bind m k).
Proof.
  intros Hm Hk bus w. unfold bind. rewrite Hm.
  destruct (m bus w) as [[a | e] w']; [apply Hk | reflexivity].
Qed.

Lemma agree_try_except_IOError (m : M A) :
  agree n m -> agree n (try_except_IOError m).
Proof. intros Hm bus w. unfold try_except_IOError. now rewrite Hm. Qed.

Lemma agree_try_except_ValueError (m : M A) :
  agree n m -> agree n (try_except_ValueError m).
Proof. intros Hm bus w. unfold try_except_ValueError. now rewrite Hm. Qed.

(** A step that returns the block itself: on the truncated transport it
    returns the first [n] items, so what follows must not look further. *)
Lemma agree_bind_block (m : M (list Z)) (k : list Z -> M B) :
  (forall bus w,
      m (truncated n bus) w
      = match m bus w with
        | (Ok blk, w') => (Ok (take n blk), w')
        | (Raise e, w') => (Raise e, w')
        end) ->
  (forall blk, agree n (k blk)) ->
  (forall blk bus w, k (take n blk) bus w = k blk bus w) ->
  agree n (bind m k).
Proof.
  intros Hm Hk Htake bus w. unfold bind. rewrite Hm.
  destruct (m bus w) as [[blk | e] w']; [| reflexivity].
  rewrite Hk. apply Htake.
Qed.

Lemma agree_read_i2c_block_then (address : Z) (k : list Z -> M B) :
  (forall blk, agree n (k blk)) ->
  (forall blk bus w, k (take n blk) bus w = k blk bus w) ->
  agree n (bind (read_i2c_block address) k).
Proof.
  intros Hk Htake. apply agree_bind_block; [| exact Hk | exact Htake].
  intros bus w. unfold read_i2c_block.
  cbn [truncated read_i2c_block_data].
  destruct (read_i2c_block_data bus w address 1); reflexivity.
Qed.

End Agree.

Lemma agree_write (n : nat) (blk : list Z) : agree n (write_i2c_block blk).
Proof. intros bus w. reflexivity. Qed.

Lemma agree_read_i2c_byte (n : nat) (address : Z) :
  agree n (read_i2c_byte address).
Proof. intros bus w. reflexivity. Qed.

Lemma agree_sleep (n : nat) (ms : Z) : agree n (sleep ms).
Proof. intros bus w. reflexivity. Qed.

Lemma agree_index (n : nat) (l : list Z) (i : nat) : agree n (index l i).
Proof. unfold index. destruct (l !! i); [apply agree_ret | apply agree_raise]. Qed.

Lemma agree_assign (n : nat) (l : list Z) (i : nat) (v : Z) :
  agree n (assign l i v).
Proof. unfold assign. destruct (l !! i); [apply agree_ret | apply agree_raise]. Qed.

Lemma agree_py_float (n : nat) (z : Z) : agree n (py_float z).
Proof. intros bus w. unfold py_float. destruct (is_infinity _); reflexivity. Qed.

Lemma agree_truediv (n : nat) (x y : float) : agree n (truediv x y).
Proof. intros bus w. unfold truediv. destruct (PrimFloat.eqb y 0); reflexivity. Qed.

Lemma agree_math_log (n : nat) (libm_log : float -> float) (x : float) :
  agree n (math_log libm_log x).
Proof.
  intros bus w. unfold math_log.
  repeat match goal with
         | |- context [if ?b then _ else _] => destruct b
         end; reflexivity.
Qed.

Create HintDb agree discriminated.

#[local] Hint Resolve agree_ret agree_raise agree_write agree_read_i2c_byte
  agree_sleep agree_index agree_assign agree_py_float agree_truediv
  agree_math_log : agree.

Ltac walk_agree :=
  repeat first
    [ progress intros
    | solve [auto with agree]
    | apply agree_try_except_IOError
    | apply agree_read_i2c_block_then
    | apply agree_bind
    | match goal with
      | |- agree _ (if ?b then _ else _) => destruct b
      end ].

(** What is left after [walk_agree]: the code after the block read gives
    the same result on the block and on its first items. *)
Ltac same_on_prefix :=
  unfold bind, index, sleep;
  rewrite ?slice_take by lia;
  rewrite ?lookup_take_lt by lia;
  reflexivity.

Lemma analog_read_agree (pin : Z) : agree 5 (analog_read pin).
Proof. unfold analog_read. walk_agree. same_on_prefix. Qed.

Lemma acc_xyz_agree : agree 5 acc_xyz.
Proof.
  unfold acc_xyz. walk_agree.
  destruct blk as [| b0 [| b1 [| b2 [| b3 [| b4 rest]]]]]; try reflexivity.
  unfold bind, index. cbn.
  destruct (b1 >? 32); cbn; destruct (b2 >? 32); cbn;
    destruct (b3 >? 32); reflexivity.
Qed.

Lemma agree_bytearray (n : nat) (l : list Z) : agree n (bytearray l).
Proof.
  intros bus w. unfold bytearray. destruct (forallb _ l); reflexivity.
Qed.

Lemma agree_struct_unpack_f (n : nat) (unpack_f : list Z -> float)
    (buf : list Z) :
  agree n (struct_unpack_f unpack_f buf).
Proof.
  intros bus w. unfold struct_unpack_f.
  destruct (length buf =? 4)%nat; reflexivity.
Qed.

#[local] Hint Resolve agree_bytearray agree_struct_unpack_f : agree.

Lemma dht_agree (unpack_f : list Z -> float) (round_f : float -> Z -> float)
    (pin module_type : Z) :
  agree 9 (dht unpack_f round_f pin module_type).
Proof.
  unfold dht.
  apply agree_bind; [apply agree_write | intros _].
  apply agree_bind; [apply agree_sleep | intros _].
  apply agree_bind_block.
  - intros bus w.
    unfold try_except_Type_Index, bind, read_i2c_byte, read_i2c_block, sleep.
    cbn [truncated read_byte read_i2c_block_data].
    change ((9223372036854 <? 100) || (100 <? -9223372036854)) with false.
    change (100 <? 0) with false. cbv beta iota.
    destruct (read_byte bus _ _); [| reflexivity].
    destruct (read_i2c_block_data bus _ _ _); reflexivity.
  - intros blk. cbv zeta. walk_agree.
    apply agree_try_except_ValueError. walk_agree.
  - intros blk bus w. unfold bind.
    rewrite !slice_take by lia. reflexivity.
Qed.

Section RunTruncated.

Variable libm_log : float -> float.
Variable unpack_f : list Z -> float.
Variable round_f : float -> Z -> float.

Lemma run_agree (c : call) (n : nat) :
  consumed_prefix c = Some n ->
  agree n (run libm_log unpack_f round_f c).
Proof.
  destruct c; cbn [consumed_prefix]; intros [= <-]; cbn [run];
    unfold none, fmap;
    (apply agree_bind; [| intros; apply agree_ret]);
    try apply analog_read_agree; try apply acc_xyz_agree;
    try apply dht_agree.
  all: cbv [digital_read digital_write pin_mode analog_write temp
            ultrasonic_read version ledbar_init
            ledbar_orientation ledbar_set_level ledbar_set_led
            ledbar_toggle_led ledbar_set_bits ledbar_get_bits
            four_digit_init four_digit_number four_digit_brightness
            four_digit_digit four_digit_segment four_digit_score
            four_digit_monitor four_digit_on four_digit_off store_color
            chainable_rgb_led_init chainable_rgb_led_test
            chainable_rgb_led_pattern chainable_rgb_led_modulo
            chainable_rgb_led_set_level ir_read_signal ir_recv_pin
            dust_sensor_en dust_sensor_dis dust_sensor_read encoder_en
            encoder_dis encoder_read flow_disable flow_enable flow_read].
  all: try (apply agree_bind; [apply analog_read_agree |]).
  all: walk_agree.
  all: same_on_prefix.
Qed.

End RunTruncated.




(** ** The schedule of a call *)

Section Emits.

Context {A B : Type}.

Lemma emits_ret (a : A) : emits (ret a) [].
Proof. intros bus w. cbn. now rewrite app_nil_r. Qed.

Lemma emits_raise (e : exn) : emits (@raise A e) [].
Proof. intros bus w. cbn. exists 0%nat. now rewrite app_nil_r. Qed.

Lemma emits_bind (m : M A) (k : A -> M B) (e1 e2 : list event) :
  emits m e1 -> (forall a, emits (k a) e2) -> emits (bind m k) (e1 ++ e2).
Proof.
  intros Hm Hk bus w. unfold bind. specialize (Hm bus w).
  destruct (m bus w) as [[a | e] w1]; cbn in *.
  - subst w1. specialize (Hk a bus (w ++ e1)).
    destruct (k a bus (w ++ e1)) as [[b | e] w2]; cbn in *.
    + subst w2. now rewrite app_assoc.
    + destruct Hk as [n ->]. exists (length e1 + n)%nat.
      now rewrite take_app_add, app_assoc.
  - destruct Hm as [n ->]. exists (Nat.min n (length e1)).
    rewrite take_app_le by lia.
    f_equal. rewrite <- take_take. now rewrite firstn_all.
Qed.

Lemma emits_bind_cons (m : M A) (k : A -> M B) (ev : event)
    (evs : list event) :
  emits m [ev] -> (forall a, emits (k a) evs) -> emits (bind m k) (ev :: evs).
Proof. intros Hm Hk. apply (emits_bind m k [ev] evs Hm Hk). Qed.

Lemma emits_bind_pure (m : M A) (k : A -> M B) (evs : list event) :
  emits m [] -> (forall a, emits (k a) evs) -> emits (bind m k) evs.
Proof. intros Hm Hk. apply (emits_bind m k [] evs Hm Hk). Qed.

Lemma emits_bind_last (m : M A) (k : A -> M B) (evs : list event) :
  emits m evs -> (forall a, emits (k a) []) -> emits (bind m k) evs.
Proof.
  intros Hm Hk. rewrite <- (app_nil_r evs). now apply emits_bind.
Qed.

Lemma emits_try_except_Type_Index (m : M A) (evs : list event) :
  emits m evs -> emits (try_except_Type_Index m) evs.
Proof.
  intros Hm bus w. unfold try_except_Type_Index. specialize (Hm bus w).
  destruct (m bus w) as [[a | [[] | ]] w']; exact Hm.
Qed.

Lemma emits_try_except_IOError (m : M A) (evs : list event) :
  emits m evs -> emits (try_except_IOError m) evs.
Proof.
  intros Hm bus w. unfold try_except_IOError. specialize (Hm bus w).
  destruct (m bus w) as [[a | [[] | ]] w']; exact Hm.
Qed.

Lemma emits_try_except_ValueError (m : M A) (evs : list event) :
  emits m evs -> emits (try_except_ValueError m) evs.
Proof.
  intros Hm bus w. unfold try_except_ValueError. specialize (Hm bus w).
  destruct (m bus w) as [[a | [[] | ]] w']; exact Hm.
Qed.

Lemma emits_prefix (m : M A) (evs : list event) (bus : SMBus) (w : trace) :
  emits m evs -> exists k, snd (m bus w) = w ++ take k evs.
Proof.
  intros Hm. specialize (Hm bus w).
  destruct (fst (m bus w)); [| exact Hm].
  exists (length evs). now rewrite firstn_all.
Qed.

End Emits.

Lemma emits_write (blk : list Z) :
  emits (write_i2c_block blk) [EvWrite I2C_ADDRESS 1 blk].
Proof.
  intros bus w. unfold write_i2c_block.
  destruct (write_i2c_block_data bus w I2C_ADDRESS 1 blk); cbn;
    [reflexivity | now exists 1%nat].
Qed.

Lemma emits_read_i2c_byte (address : Z) :
  emits (read_i2c_byte address) [EvReadByte address].
Proof.
  intros bus w. unfold read_i2c_byte.
  destruct (read_byte bus w address); cbn; [reflexivity | now exists 1%nat].
Qed.

Lemma emits_read_i2c_block (address : Z) :
  emits (read_i2c_block address) [EvReadBlock address 1].
Proof.
  intros bus w. unfold read_i2c_block.
  destruct (read_i2c_block_data bus w address 1); cbn;
    [reflexivity | now exists 1%nat].
Qed.

Lemma emits_sleep (ms : Z) : emits (sleep ms) [EvSleep ms].
Proof.
  intros bus w. unfold sleep.
  destruct (_ || _); cbn; [exists 0%nat; now rewrite app_nil_r |].
  destruct (ms <? 0); cbn; [| reflexivity].
  exists 0%nat. now rewrite app_nil_r.
Qed.

Lemma emits_index (l : list Z) (i : nat) : emits (index l i) [].
Proof. unfold index. destruct (l !! i); [apply emits_ret | apply emits_raise]. Qed.

Lemma emits_assign (l : list Z) (i : nat) (v : Z) : emits (assign l i v) [].
Proof. unfold assign. destruct (l !! i); [apply emits_ret | apply emits_raise]. Qed.

Lemma emits_py_float (n : Z) : emits (py_float n) [].
Proof.
  unfold py_float. destruct (is_infinity _); [apply emits_raise | apply emits_ret].
Qed.

Lemma emits_truediv (x y : float) : emits (truediv x y) [].
Proof.
  unfold truediv. destruct (PrimFloat.eqb y 0); [apply emits_raise | apply emits_ret].
Qed.

Lemma emits_bytearray (l : list Z) : emits (bytearray l) [].
Proof.
  unfold bytearray. destruct (forallb _ l); [apply emits_ret | apply emits_raise].
Qed.

Lemma emits_math_log (libm_log : float -> float) (x : float) :
  emits (math_log libm_log x) [].
Proof.
  unfold math_log.
  repeat match goal with
         | |- emits (if ?b then _ else _) _ => destruct b
         end; first [apply emits_ret | apply emits_raise].
Qed.

Lemma emits_struct_unpack_f (unpack_f : list Z -> float) (buf : list Z) :
  emits (struct_unpack_f unpack_f buf) [].
Proof.
  unfold struct_unpack_f.
  destruct (length buf =? 4)%nat; [apply emits_ret | apply emits_raise].
Qed.

Create HintDb emits discriminated.

#[local] Hint Resolve emits_ret emits_raise emits_write emits_read_i2c_byte
  emits_read_i2c_block emits_sleep emits_index emits_assign emits_py_float
  emits_truediv emits_bytearray emits_math_log emits_struct_unpack_f : emits.

(** A bind whose head is a transport call or a sleep adds one effect; a bind
    whose head is a computation on values adds none. *)
Ltac walk_emits :=
  repeat first
    [ progress intros
    | solve [auto with emits]
    | apply emits_try_except_IOError
    | apply emits_try_except_ValueError
    | apply emits_bind_cons; [solve [auto with emits] |]
    | apply emits_bind_pure; [solve [auto with emits] |]
    | match goal with
      | |- emits (if ?b then _ else _) _ => destruct b
      | |- emits (bind (if ?b then _ else _) _) _ => destruct b
      end ].

Lemma emits_analog_read (pin : Z) :
  emits (analog_read pin)
        [EvWrite I2C_ADDRESS 1 [3; pin; 0; 0]; EvSleep 100;
         EvReadByte I2C_ADDRESS; EvReadBlock I2C_ADDRESS 1; EvSleep 100].
Proof. unfold analog_read. walk_emits. Qed.

Lemma emits_acc_xyz :
  emits acc_xyz
        [EvWrite I2C_ADDRESS 1 [20; 0; 0; 0]; EvSleep 100;
         EvReadByte I2C_ADDRESS; EvReadBlock I2C_ADDRESS 1].
Proof.
  unfold acc_xyz. walk_emits.
  all: repeat (apply emits_bind_pure; [walk_emits | intros]); walk_emits.
Qed.

Section RunEmits.

Variable libm_log : float -> float.
Variable unpack_f : list Z -> float.
Variable round_f : float -> Z -> float.

Lemma emits_temp (pin : Z) (model : pyval) :
  emits (temp libm_log pin model)
        [EvWrite I2C_ADDRESS 1 [3; pin; 0; 0]; EvSleep 100;
         EvReadByte I2C_ADDRESS; EvReadBlock I2C_ADDRESS 1; EvSleep 100].
Proof.
  unfold temp. apply emits_bind_last; [apply emits_analog_read |].
  walk_emits.
Qed.

Lemma emits_dht (pin module_type : Z) :
  emits (dht unpack_f round_f pin module_type)
        [EvWrite I2C_ADDRESS 1 [40; pin; module_type; 0]; EvSleep 600;
         EvReadByte I2C_ADDRESS; EvReadBlock I2C_ADDRESS 1; EvSleep 100].
Proof.
  unfold dht. walk_emits.
  apply (emits_bind _ _ [EvReadByte I2C_ADDRESS; EvReadBlock I2C_ADDRESS 1;
                         EvSleep 100] []).
  - apply emits_try_except_Type_Index. walk_emits.
  - cbv zeta. walk_emits.
Qed.

Lemma run_emits (c : call) :
  emits (run libm_log unpack_f round_f c) (schedule c).
Proof.
  destruct c; cbn [run]; unfold none, fmap;
    (apply emits_bind_last; [| intros; apply emits_ret]);
    try apply emits_temp; try apply emits_dht; try apply emits_acc_xyz;
    try apply emits_analog_read.
  all: unfold schedule, frames_of, catalog, after_frame, pin_mode.
  all: repeat match goal with
         | |- context [if ?b then _ else _] => destruct b
         end.
  all: cbv [digital_read digital_write 
            analog_write ultrasonic_read version rtc_get_time ledbar_init
            ledbar_orientation ledbar_set_level ledbar_set_led
            ledbar_toggle_led ledbar_set_bits ledbar_get_bits
            four_digit_init four_digit_number four_digit_brightness
            four_digit_digit four_digit_segment four_digit_score
            four_digit_monitor four_digit_on four_digit_off store_color
            chainable_rgb_led_init chainable_rgb_led_test
            chainable_rgb_led_pattern chainable_rgb_led_modulo
            chainable_rgb_led_set_level ir_read_signal ir_recv_pin
            dust_sensor_en dust_sensor_dis dust_sensor_read encoder_en
            encoder_dis encoder_read flow_disable flow_enable flow_read
            map app].
  all: walk_emits.
Qed.

End RunEmits.

Lemma schedule_prefix_invariants (c : call) (k : nat) :
  reads_settled Idle (take k (schedule c)) = true
  /\ forallb to_device (take k (schedule c)) = true
  /\ single_round_trip (take k (schedule c)) = true.
Proof.
  destruct c; unfold schedule, frames_of, catalog;
    repeat match goal with
           | |- context [if ?b then _ else _] => destruct b
           end;
    cbn [after_frame map app];
    do 6 (destruct k as [| k]; [repeat split; reflexivity |]);
    repeat split; reflexivity.
Qed.

Section Schedule.

Variable libm_log : float -> float.
Variable unpack_f : list Z -> float.
Variable round_f : float -> Z -> float.

(** X1: every call follows a fixed schedule of transport calls and sleeps:
    a run that returns has performed exactly that schedule after the history
    it started from, and a run that raises has performed a prefix of it --
    nothing is retried and nothing happens after a failure. *)
Theorem run_follows_schedule (c : call) (bus : SMBus) (w : trace) :
  match fst (run libm_log unpack_f round_f c bus w) with
  | Ok _ => snd (run libm_log unpack_f round_f c bus w) = w ++ schedule c
  | Raise _ =>
      exists k,
        snd (run libm_log unpack_f round_f c bus w) = w ++ take k (schedule c)
  end.
Proof. apply run_emits. Qed.

(** X2: no device operation reads from the transport before its frame has
    been written and a sleep of at least 0.1 s has followed the write.  The
    transport wrappers [read_i2c_byte] and [read_i2c_block] are not device
    operations: called on their own they read at once, with no write and no
    sleep before. *)
Theorem reads_follow_the_write_and_the_settle_delay
    (c : call) (bus : SMBus) (w : trace) :
  (exists new,
      snd (run libm_log unpack_f round_f c bus w) = w ++ new
      /\ reads_settled Idle new = true)
  /\ (forall address,
         snd (read_i2c_byte address bus w) = w ++ [EvReadByte address]
         /\ reads_settled Idle [EvReadByte address] = false)
  /\ (forall address,
         snd (read_i2c_block address bus w) = w ++ [EvReadBlock address 1]
         /\ reads_settled Idle [EvReadBlock address 1] = false).
Proof.
  split; [| split].
  - destruct (emits_prefix _ _ bus w (run_emits libm_log unpack_f round_f c))
      as [k Hk].
    exists (take k (schedule c)). split; [exact Hk |].
    apply schedule_prefix_invariants.
  - intros address. split; [| reflexivity].
    unfold read_i2c_byte. now destruct (read_byte bus w address).
  - intros address. split; [| reflexivity].
    unfold read_i2c_block.
    now destruct (read_i2c_block_data bus w address 1).
Qed.


(** X3: whatever the transport answers, a device operation talks only to
    device address 4 with command byte 1 and makes at most one block write,
    one byte read and one block read.  Of the transport wrappers,
    [write_i2c_block] always writes to device 4 under command 1, while
    [read_i2c_byte] and [read_i2c_block] make their one read at whatever
    address they are given. *)
Theorem operations_make_one_round_trip_to_device_4
    (c : call) (bus : SMBus) (w : trace) :
  (exists new,
      snd (run libm_log unpack_f round_f c bus w) = w ++ new
      /\ forallb to_device new = true
      /\ single_round_trip new = true)
  /\ (forall block,
         snd (write_i2c_block block bus w) = w ++ [EvWrite 4 1 block])
  /\ (forall address,
         snd (read_i2c_byte address bus w) = w ++ [EvReadByte address]
         /\ forallb to_device [EvReadByte address] = (address =? 4))
  /\ (forall address,
         snd (read_i2c_block address bus w) = w ++ [EvReadBlock address 1]
         /\ forallb to_device [EvReadBlock address 1] = (address =? 4)).
Proof.
  split; [| split; [| split]].
  - destruct (emits_prefix _ _ bus w (run_emits libm_log unpack_f round_f c))
      as [k Hk].
    exists (take k (schedule c)). split; [exact Hk |].
    apply schedule_prefix_invariants.
  - intros block. unfold write_i2c_block.
    now destruct (write_i2c_block_data bus w I2C_ADDRESS 1 block).
  - intros address. split.
    + unfold read_i2c_byte. now destruct (read_byte bus w address).
    + cbn. now rewrite andb_true_r.
  - intros address. split.
    + unfold read_i2c_block.
      now destruct (read_i2c_block_data bus w address 1).
    + cbn. now rewrite !andb_true_r.
Qed.


End Schedule.

(** ** A failed write *)

Lemma raises_bind {A B} (m : M A) (k : A -> M B) (bus : SMBus) (w w' : trace)
    (e : exn) :
  m bus w = (Raise e, w') -> bind m k bus w = (Raise e, w').
Proof. intros H. unfold bind. now rewrite H. Qed.

Lemma raises_try_except_IOError {A} (m : M A) (bus : SMBus) (w w' : trace)
    (a : grovepi_args) :
  m bus w = (Raise (GrovePiException a), w') ->
  try_except_IOError m bus w = (Raise (GrovePiException a), w').
Proof. intros H. unfold try_except_IOError. now rewrite H. Qed.

Lemma write_fails (blk : list Z) (bus : SMBus) (w : trace) (n : Z) :
  write_i2c_block_data bus w I2C_ADDRESS 1 blk = IOFail n ->
  write_i2c_block blk bus w
  = (Raise (GrovePiException (OfExn (IOError n))),
     w ++ [EvWrite I2C_ADDRESS 1 blk]).
Proof. intros H. unfold write_i2c_block. now rewrite H. Qed.

(** X4: when the transport refuses the frame of a call, the call raises
    [GrovePiException] wrapping that [IOError], and the write is its only
    effect: no sleep and no read follow. *)
Theorem failed_write_ends_the_call
    (libm_log : float -> float) (unpack_f : list Z -> float)
    (round_f : float -> Z -> float)
    (c : call) (bus : SMBus) (w : trace) (opcode : Z) (params : list Z)
    (n : Z) :
  catalog c = Some (opcode, params) ->
  write_i2c_block_data bus w I2C_ADDRESS 1 (encode_frame opcode params)
  = IOFail n ->
  run libm_log unpack_f round_f c bus w
  = (Raise (GrovePiException (OfExn (IOError n))),
     w ++ [EvWrite I2C_ADDRESS 1 (encode_frame opcode params)]).
Proof.
  intros Hc Hw.
  destruct c; cbn [catalog] in Hc;
    repeat match type of Hc with
           | context [if ?b then _ else _] => destruct b eqn:?
           end;
    repeat match goal with
           | b : bool |- _ => destruct b
           end;
    try discriminate Hc;
    injection Hc as <- <-;
    cbn [run]; unfold none, fmap; apply raises_bind;
    cbv [digital_read digital_write pin_mode analog_read temp
         analog_write ultrasonic_read version acc_xyz rtc_get_time dht
         ledbar_init
         ledbar_orientation ledbar_set_level ledbar_set_led
         ledbar_toggle_led ledbar_set_bits ledbar_get_bits
         four_digit_init four_digit_number four_digit_brightness
         four_digit_digit four_digit_segment four_digit_score
         four_digit_monitor four_digit_on four_digit_off store_color
         chainable_rgb_led_init chainable_rgb_led_test
         chainable_rgb_led_pattern chainable_rgb_led_modulo
         chainable_rgb_led_set_level ir_read_signal ir_recv_pin
         dust_sensor_en dust_sensor_dis dust_sensor_read encoder_en
         encoder_dis encoder_read flow_disable flow_enable flow_read];
    repeat match goal with
           | H : ?b = _ |- context [if ?b then _ else _] => rewrite H
           end;
    repeat first [ apply raises_try_except_IOError | apply raises_bind ];
    apply write_fails; exact Hw.
Qed.

Lemma failed_write_ends_the_call_witness :
  run (fun x => x) (fun _ => 0%float) (fun x _ => x) (Analog_read 3)
      (failing_bus 5) []
  = (Raise (GrovePiException (OfExn (IOError 5))),
     [EvWrite I2C_ADDRESS 1 [3; 3; 0; 0]]).
Proof.
  apply (failed_write_ends_the_call
           (fun x => x) (fun _ => 0%float) (fun x _ => x)
           (Analog_read 3) (failing_bus 5) [] 3 [3] 5); reflexivity.
Defined.

(** ** Two-byte and three-byte values *)

Lemma xor_is_sum (lo hi : Z) :
  is_byte lo -> Z.lxor lo (Z.shiftl hi 8) = lo + 256 * hi.
Proof.
  intros Hlo. unfold is_byte in Hlo.
  rewrite <- (split_recombine (lo + 256 * hi)).
  assert (Hmod : Z.land (lo + 256 * hi) 255 = lo).
  { change 255 with (Z.ones 8). rewrite Z.land_ones by lia.
    symmetry. apply (Z.mod_unique_pos _ _ hi); lia. }
  assert (Hdiv : Z.shiftr (lo + 256 * hi) 8 = hi).
  { rewrite Z.shiftr_div_pow2 by lia.
    symmetry. apply (Z.div_unique_pos _ _ _ lo); lia. }
  now rewrite Hmod, Hdiv.
Qed.

(** X5: [analog_read] and [ultrasonic_read] combine block items 1 and 2
    high byte first, [ledbar_get_bits] combines the same two items low byte
    first (its XOR is a sum on bytes); each result lies in 0..65535. *)
Theorem two_byte_reads_and_their_byte_order (pin x b0 b1 b2 : Z)
    (rest : list Z) :
  is_byte b1 -> is_byte b2 ->
  let blk := b0 :: b1 :: b2 :: rest in
  fst (analog_read pin (replying_bus x blk) []) = Ok (b1 * 256 + b2)
  /\ fst (ultrasonic_read pin (replying_bus x blk) []) = Ok (b1 * 256 + b2)
  /\ fst (ledbar_get_bits pin (replying_bus x blk) []) = Ok (b2 * 256 + b1)
  /\ 0 <= b1 * 256 + b2 <= 65535
  /\ 0 <= b2 * 256 + b1 <= 65535.
Proof.
  intros H1 H2 blk. subst blk.
  repeat split; try reflexivity; try (unfold is_byte in *; lia).
  cbv [ledbar_get_bits bind write_i2c_block sleep read_i2c_byte
       read_i2c_block replying_bus write_i2c_block_data read_byte
       read_i2c_block_data].
  cbn. unfold ret. cbn. f_equal. rewrite xor_is_sum by exact H1. lia.
Qed.

Lemma two_byte_reads_and_their_byte_order_witness :
  fst (analog_read 0 (replying_bus 0 [0; 1; 2; 0; 0]) []) = Ok 258
  /\ fst (ledbar_get_bits 0 (replying_bus 0 [0; 1; 2; 0; 0]) []) = Ok 513.
Proof.
  pose proof (two_byte_reads_and_their_byte_order 0 0 0 1 2 [0; 0]) as H.
  cbv zeta in H.
  assert (H1 : is_byte 1) by (unfold is_byte; lia).
  assert (H2 : is_byte 2) by (unfold is_byte; lia).
  destruct (H H1 H2) as (Ha & _ & Hl & _).
  split; [exact Ha | exact Hl].
Defined.

(** X6: with a header other than 255, [dust_sensor_read] returns the
    24-bit little-endian value of items 1..3 and [flow_read] the 16-bit
    little-endian value of items 1..2; every byte can be read back from the
    value by division and remainder. *)
Theorem counters_keep_every_byte (x d0 d1 d2 d3 : Z) (rest : list Z) :
  d0 <> 255 -> is_byte d1 -> is_byte d2 -> is_byte d3 ->
  let blk := d0 :: d1 :: d2 :: d3 :: rest in
  exists lpo flow,
    fst (dust_sensor_read (replying_bus x blk) []) = Ok [d0; lpo]
    /\ fst (flow_read (replying_bus x blk) []) = Ok [d0; flow]
    /\ 0 <= lpo < 16777216
    /\ lpo mod 256 = d1 /\ (lpo / 256) mod 256 = d2 /\ lpo / 65536 = d3
    /\ 0 <= flow < 65536
    /\ flow mod 256 = d1 /\ flow / 256 = d2.
Proof.
  intros Hd0 H1 H2 H3 blk. subst blk. unfold is_byte in *.
  apply Z.eqb_neq in Hd0.
  exists (d3 * 256 * 256 + d2 * 256 + d1), (d2 * 256 + d1).
  split; [| split].
  - cbv [dust_sensor_read bind write_i2c_block sleep read_i2c_block
         replying_bus write_i2c_block_data read_i2c_block_data].
    cbn. rewrite Hd0. reflexivity.
  - cbv [flow_read bind write_i2c_block sleep read_i2c_block
         replying_bus write_i2c_block_data read_i2c_block_data].
    cbn. rewrite Hd0. reflexivity.
  - repeat split; try lia.
    + symmetry. apply (Z.mod_unique_pos _ _ (d3 * 256 + d2)); lia.
    + assert (Hq : (d3 * 256 * 256 + d2 * 256 + d1) / 256 = d3 * 256 + d2)
        by (symmetry; apply (Z.div_unique_pos _ _ _ d1); lia).
      rewrite Hq. symmetry. apply (Z.mod_unique_pos _ _ d3); lia.
    + symmetry. apply (Z.div_unique_pos _ _ _ (d2 * 256 + d1)); lia.
    + symmetry. apply (Z.mod_unique_pos _ _ d2); lia.
    + symmetry. apply (Z.div_unique_pos _ _ _ d1); lia.
Qed.

Lemma counters_keep_every_byte_witness :
  exists lpo flow,
    fst (dust_sensor_read (replying_bus 0 [7; 1; 2; 3; 0]) []) = Ok [7; lpo]
    /\ fst (flow_read (replying_bus 0 [7; 1; 2; 3; 0]) []) = Ok [7; flow]
    /\ 0 <= lpo < 16777216
    /\ lpo mod 256 = 1 /\ (lpo / 256) mod 256 = 2 /\ lpo / 65536 = 3
    /\ 0 <= flow < 65536
    /\ flow mod 256 = 1 /\ flow / 256 = 2.
Proof.
  apply (counters_keep_every_byte 0 7 1 2 3 [0]); unfold is_byte; lia.
Defined.

(** ** Splitting a 16-bit value over two slots *)

Lemma split_is_lossless (v : Z) :
  is_byte (Z.land v 255)
  /\ Z.land v 255 + 256 * Z.shiftr v 8 = v
  /\ (is_byte (Z.shiftr v 8) <-> 0 <= v <= 65535).
Proof.
  assert (Hland : Z.land v 255 = v mod 256)
    by (change 255 with (Z.ones 8); now rewrite Z.land_ones by lia).
  assert (Hshr : Z.shiftr v 8 = v / 256)
    by (now rewrite Z.shiftr_div_pow2 by lia).
  rewrite Hland, Hshr. unfold is_byte.
  pose proof (Z.mod_pos_bound v 256 ltac:(lia)).
  pose proof (Z.div_mod v 256 ltac:(lia)).
  repeat split; lia.
Qed.

(** X7: [ledbar_set_bits] and [four_digit_number] split any integer without
    loss: the low slot is a byte, low + 256 * high is the value, and the
    high slot is a byte exactly when the value is in 0..65535;
    [four_digit_number] uses opcode 72 when [leading_zero] is true and 73
    otherwise. *)
Theorem split_values_are_sent_whole (pin v : Z) (leading_zero : bool)
    (bus : SMBus) (w : trace) :
  exists low high,
    writes (snd (ledbar_set_bits pin v bus w)) = writes w ++ [[55; pin; low; high]]
    /\ writes (snd (four_digit_number pin v leading_zero bus w))
       = writes w ++ [[if leading_zero then 72 else 73; pin; low; high]]
    /\ is_byte low
    /\ low + 256 * high = v
    /\ (is_byte high <-> 0 <= v <= 65535).
Proof.
  exists (Z.land v 255), (Z.shiftr v 8).
  split; [| split; [| apply split_is_lossless]].
  - apply (sends_write _ bus w).
  - assert (H : sends (four_digit_number pin v leading_zero)
                  [[if leading_zero then 72 else 73; pin;
                    Z.land v 255; Z.shiftr v 8]]).
    { unfold four_digit_number. destruct leading_zero;
        (apply sends_bind; [apply sends_write | intros; apply sends_sleep]). }
    apply H.
Qed.

(** ** Accelerometer range *)

(** X8: for axis bytes in 0..255 every value [acc_xyz] returns lies in
    -31..191, and it is negative exactly when the byte is above 224. *)
Theorem acc_xyz_axis_range (x b0 b1 b2 b3 : Z) (rest : list Z) :
  is_byte b1 -> is_byte b2 -> is_byte b3 ->
  exists vx vy vz,
    fst (acc_xyz (replying_bus x (b0 :: b1 :: b2 :: b3 :: rest)) [])
    = Ok (vx, vy, vz)
    /\ (-31 <= vx <= 191 /\ (vx < 0 <-> 224 < b1))
    /\ (-31 <= vy <= 191 /\ (vy < 0 <-> 224 < b2))
    /\ (-31 <= vz <= 191 /\ (vz < 0 <-> 224 < b3)).
Proof.
  intros H1 H2 H3. unfold is_byte in *.
  rewrite acc_xyz_replying. cbv zeta.
  eexists _, _, _. split; [reflexivity |].
  destruct (Z.gtb_spec b1 32); destruct (Z.gtb_spec b2 32);
    destruct (Z.gtb_spec b3 32); lia.
Qed.

Lemma acc_xyz_axis_range_witness :
  exists vx vy vz,
    fst (acc_xyz (replying_bus 0 [0; 100; 255; 7; 0]) []) = Ok (vx, vy, vz)
    /\ (-31 <= vx <= 191 /\ (vx < 0 <-> 224 < 100))
    /\ (-31 <= vy <= 191 /\ (vy < 0 <-> 224 < 255))
    /\ (-31 <= vz <= 191 /\ (vz < 0 <-> 224 < 7)).
Proof.
  apply (acc_xyz_axis_range 0 0 100 255 7 [0]); unfold is_byte; lia.
Defined.

(** ** Blocks that are too short *)

(** X9: on a block reply of at most one item (other than the lone sentinel
    [[255]]) the block-decoding reads raise [IndexError], which is not
    wrapped into [GrovePiException]; the [except IOError] of
    [ir_read_signal] does not catch it. *)
Theorem short_block_escapes_as_IndexError (pin x : Z) (blk : list Z) :
  (length blk <= 1)%nat -> blk <> [255] ->
  let bus := replying_bus x blk in
  fst (analog_read pin bus []) = Raise (Builtin IndexError)
  /\ fst (ultrasonic_read pin bus []) = Raise (Builtin IndexError)
  /\ fst (version bus []) = Raise (Builtin IndexError)
  /\ fst (acc_xyz bus []) = Raise (Builtin IndexError)
  /\ fst (ledbar_get_bits pin bus []) = Raise (Builtin IndexError)
  /\ fst (ir_read_signal bus []) = Raise (Builtin IndexError)
  /\ fst (dust_sensor_read bus []) = Raise (Builtin IndexError)
  /\ fst (encoder_read bus []) = Raise (Builtin IndexError)
  /\ fst (flow_read bus []) = Raise (Builtin IndexError).
Proof.
  intros Hlen Hne bus. subst bus.
  destruct blk as [| d0 [| d1 rest]]; [| | cbn in Hlen; lia].
  - repeat split; reflexivity.
  - assert (Hd0 : (d0 =? 255) = false).
    { apply Z.eqb_neq. intros ->. now apply Hne. }
    cbv [dust_sensor_read encoder_read flow_read bind write_i2c_block sleep
         read_i2c_block replying_bus write_i2c_block_data
         read_i2c_block_data].
    cbn. rewrite Hd0. repeat split; reflexivity.
Qed.

Lemma short_block_escapes_as_IndexError_witness :
  fst (analog_read 0 (replying_bus 0 []) []) = Raise (Builtin IndexError)
  /\ fst (ir_read_signal (replying_bus 0 []) []) = Raise (Builtin IndexError).
Proof.
  pose proof (short_block_escapes_as_IndexError 0 0 []) as H.
  cbv zeta in H.
  destruct H as (Ha & _ & _ & _ & _ & Hi & _);
    [cbn; lia | discriminate |].
  split; [exact Ha | exact Hi].
Defined.

(** X10: [dht] needs nine items: on a block of fewer than nine bytes it
    ends with [struct.error], which the [try] around the reads does not
    cover. *)
Theorem dht_needs_nine_bytes (unpack_f : list Z -> float)
    (round_f : float -> Z -> float) (pin module_type x : Z) (blk : list Z) :
  Forall is_byte blk -> (length blk < 9)%nat ->
  fst (dht unpack_f round_f pin module_type (replying_bus x blk) [])
  = Raise (Builtin StructError).
Proof.
  intros Hbytes Hlen.
  unfold dht, bind, try_except_Type_Index, write_i2c_block, sleep,
    read_i2c_byte, read_i2c_block.
  cbn [replying_bus write_i2c_block_data read_byte read_i2c_block_data].
  change ((9223372036854 <? 600) || (600 <? -9223372036854)) with false.
  change ((9223372036854 <? 100) || (100 <? -9223372036854)) with false.
  change (600 <? 0) with false. change (100 <? 0) with false.
  cbv beta iota. unfold ret at 1. cbv beta iota.
  rewrite !bytearray_bytes by now apply Forall_slice.
  unfold struct_unpack_f. rewrite !length_slice.
  destruct (Nat.eqb_spec (Nat.min (5 - 1) (length blk - 1)) 4) as [H4 | H4];
    [| reflexivity].
  cbn [ret fst snd].
  destruct (Nat.eqb_spec (Nat.min (9 - 5) (length blk - 5)) 4) as [H9 | H9];
    [lia | reflexivity].
Qed.

Lemma dht_needs_nine_bytes_witness :
  fst (dht (fun _ => 0%float) (fun x _ => x) 4 0
           (replying_bus 0 [0; 1; 2; 3; 4]) [])
  = Raise (Builtin StructError).
Proof.
  apply (dht_needs_nine_bytes (fun _ => 0%float) (fun x _ => x) 4 0 0
           [0; 1; 2; 3; 4]).
  - repeat constructor; unfold is_byte; lia.
  - cbn; lia.
Defined.

(** ** The monitoring time *)




(** ** The infrared read *)

(** X12: on a block of at least two bytes [ir_read_signal] returns at most
    21 items: twenty-one times -1 when item 1 is 255, and otherwise the
    first 21 items of the block, which are bytes -- so the no-signal answer
    cannot be mistaken for data. *)
Theorem ir_read_signal_answers (x : Z) (blk : list Z) :
  (2 <= length blk)%nat -> Forall is_byte blk ->
  exists l,
    fst (ir_read_signal (replying_bus x blk) []) = Ok l
    /\ (length l <= 21)%nat
    /\ ((blk !! 1%nat = Some 255 /\ l = repeat (-1) 21)
        \/ (blk !! 1%nat <> Some 255 /\ l = take 21 blk /\ Forall is_byte l)).
Proof.
  intros Hlen Hbytes.
  destruct blk as [| b0 [| b1 rest]]; [cbn in Hlen; lia | cbn in Hlen; lia |].
  cbv [ir_read_signal try_except_IOError bind write_i2c_block sleep
       read_i2c_block replying_bus write_i2c_block_data read_i2c_block_data].
  cbn -[take repeat].
  unfold slice. rewrite drop_0. change (21 - 0)%nat with 21%nat.
  cbn -[repeat].
  destruct (Z.eqb_spec b1 255) as [-> | Hne]; cbn -[repeat take].
  - eexists. split; [reflexivity |]. split; [cbn; lia |]. now left.
  - eexists. split; [reflexivity |].
    split.
    + change (b0 :: b1 :: take 19 rest) with (take 21 (b0 :: b1 :: rest)).
      rewrite length_take. lia.
    + right. split; [congruence |]. split; [reflexivity |].
      change (b0 :: b1 :: take 19 rest) with (take 21 (b0 :: b1 :: rest)).
      now apply Forall_take.
Qed.

Lemma ir_read_signal_answers_witness :
  exists l,
    fst (ir_read_signal (replying_bus 0 [0; 255; 3]) []) = Ok l
    /\ (length l <= 21)%nat
    /\ (([0; 255; 3] !! 1%nat = Some 255 /\ l = repeat (-1) 21)
        \/ ([0; 255; 3] !! 1%nat <> Some 255 /\ l = take 21 [0; 255; 3]
            /\ Forall is_byte l)).
Proof.
  apply (ir_read_signal_answers 0 [0; 255; 3]); [cbn; lia |].
  repeat constructor; unfold is_byte; lia.
Defined.

(** ** The thermistor on top of the analog read *)

Lemma bind_silent_tail {A B} (m : M A) (k : A -> M B)
    (bus : SMBus) (w : trace) :
  (forall a, emits (k a) []) ->
  snd (bind m k bus w) = snd (m bus w)
  /\ match fst (m bus w) with
     | Raise e => fst (bind m k bus w) = Raise e
     | Ok _ => True
     end.
Proof.
  intros Hk. unfold bind.
  destruct (m bus w) as [[a | e] w']; cbn [fst snd]; [| now split].
  split; [| exact I].
  specialize (Hk a bus w'). destruct (fst (k a bus w')).
  - now rewrite Hk, app_nil_r.
  - destruct Hk as [n ->]. now rewrite take_nil, app_nil_r.
Qed.

(** X13: [temp] adds no bus traffic to [analog_read]: both leave the same
    trace, and a failure of [analog_read] is the failure of [temp]. *)
Theorem temp_is_analog_read_on_the_bus (libm_log : float -> float)
    (pin : Z) (model : pyval) (bus : SMBus) (w : trace) :
  snd (temp libm_log pin model bus w) = snd (analog_read pin bus w)
  /\ match fst (analog_read pin bus w) with
     | Raise e => fst (temp libm_log pin model bus w) = Raise e
     | Ok _ => True
     end.
Proof.
  unfold temp. apply bind_silent_tail. walk_emits.
Qed.

(** ** The thermistor outside its scale *)

Lemma byte_in_range (b : Z) : is_byte b -> In b (map Z.of_nat (seq 0 256)).
Proof.
  intros Hb. unfold is_byte in Hb.
  apply in_map_iff. exists (Z.to_nat b). split; [lia |].
  apply in_seq. lia.
Qed.

Lemma temp_scan (libm_log : float -> float) (pin : Z) (model : pyval)
    (x b0 : Z) (rest : list Z) :
  forallb
    (fun b1 =>
       forallb
         (fun b2 =>
            let a := b1 * 256 + b2 in
            if (1 <=? a) && (a <=? 1022) then true
            else
              match fst (temp libm_log pin model
                           (replying_bus x (b0 :: b1 :: b2 :: rest)) []) with
              | Raise (Builtin ZeroDivisionError) => a =? 0
              | Raise (Builtin ValueError) => 1023 <=? a
              | _ => false
              end)
         (map Z.of_nat (seq 0 256)))
    (map Z.of_nat (seq 0 256)) = true.
Proof. vm_compute. reflexivity. Qed.

(** X14: for every pair of bytes read, [temp] raises [ZeroDivisionError]
    when the analog value is 0 and [ValueError] when it is 1023 or more; it
    can return a temperature only for values 1..1022. *)
Theorem temp_fails_outside_1_to_1022 (libm_log : float -> float)
    (pin : Z) (model : pyval) (x b0 b1 b2 : Z) (rest : list Z) :
  is_byte b1 -> is_byte b2 ->
  let a := b1 * 256 + b2 in
  let outcome :=
    fst (temp libm_log pin model (replying_bus x (b0 :: b1 :: b2 :: rest)) [])
  in
  (a = 0 -> outcome = Raise (Builtin ZeroDivisionError))
  /\ (1023 <= a -> outcome = Raise (Builtin ValueError))
  /\ (forall t, outcome = Ok t -> 1 <= a <= 1022).
Proof.
  intros H1 H2 a outcome.
  pose proof (temp_scan libm_log pin model x b0 rest) as Hscan.
  rewrite forallb_forall in Hscan.
  specialize (Hscan b1 (byte_in_range b1 H1)).
  rewrite forallb_forall in Hscan.
  specialize (Hscan b2 (byte_in_range b2 H2)).
  cbv zeta in Hscan. fold a in Hscan. fold outcome in Hscan.
  destruct ((1 <=? a) && (a <=? 1022)) eqn:Hin.
  - apply andb_prop in Hin as [Hlo Hhi].
    repeat split; intros; lia.
  - apply andb_false_iff in Hin.
    destruct outcome as [t | [[] | g]]; try discriminate Hscan.
    + repeat split; intros; try lia; discriminate.
    + repeat split; intros; try lia; discriminate.
Qed.

Lemma temp_fails_outside_1_to_1022_witness :
  fst (temp (fun x => x) 0 (VStr "1.2") (replying_bus 0 [0; 4; 0; 0; 0]) [])
  = Raise (Builtin ValueError).
Proof.
  pose proof (temp_fails_outside_1_to_1022 (fun x => x) 0 (VStr "1.2")
                0 0 4 0 [0; 0]) as H.
  cbv zeta in H.
  apply H; unfold is_byte; lia.
Defined.

(** ** The command-line tool *)

(** X15: the command-line [main] sets the pin mode first (1 for a write,
    0 for a read); when that write fails it prints the exception and exits
    with status 1 without sending anything else. *)
Theorem main_stops_when_pin_mode_fails (args : Cli.Namespace)
    (bus : SMBus) (w : trace) (n : Z) :
  Cli.parsed args ->
  let frame := [5; Cli.pin args; if Cli.write args then 1 else 0; 0] in
  write_i2c_block_data bus w I2C_ADDRESS 1 frame = IOFail n ->
  Cli.main args bus w
  = (Cli.ExitError (OfExn (IOError n)), w ++ [EvWrite I2C_ADDRESS 1 frame]).
Proof.
  destruct args as [d a r wr p v]. unfold Cli.parsed. cbv zeta.
  cbn [Cli.digital Cli.analog Cli.read Cli.write Cli.pin Cli.value].
  intros [Hda Hrw] Hw.
  unfold Cli.main.
  cbn [Cli.digital Cli.analog Cli.read Cli.write Cli.pin Cli.value].
  destruct d, a; try discriminate Hda; destruct r, wr; try discriminate Hrw;
    cbn [andb];
    match goal with
    | |- context [bind ?m ?k bus w] =>
        match type of Hw with
        | write_i2c_block_data _ _ _ _ ?frame = _ =>
            assert (Hpm : m bus w
                          = (Raise (GrovePiException (OfExn (IOError n))),
                             w ++ [EvWrite I2C_ADDRESS 1 frame]))
              by (apply write_fails; exact Hw);
            rewrite (raises_bind m k bus w _ _ Hpm)
        end
    end;
    reflexivity.
Qed.

Lemma main_stops_when_pin_mode_fails_witness :
  Cli.main {| Cli.digital := true; Cli.analog := false; Cli.read := false;
              Cli.write := true; Cli.pin := 3; Cli.value := Some 1 |}
           (failing_bus 5) []
  = (Cli.ExitError (OfExn (IOError 5)), [EvWrite I2C_ADDRESS 1 [5; 3; 1; 0]]).
Proof.
  apply (main_stops_when_pin_mode_fails
           {| Cli.digital := true; Cli.analog := false; Cli.read := false;
              Cli.write := true; Cli.pin := 3; Cli.value := Some 1 |}
           (failing_bus 5) [] 5).
  - split; reflexivity.
  - reflexivity.
Defined.

Lemma yields_digital_read (bus : SMBus) (pin : Z) :
  yields bus (digital_read pin) (fun _ => True).
Proof. unfold digital_read. walk_yields. Qed.

Lemma yields_analog_read (bus : SMBus) (pin : Z) :
  blocks_of_bytes 3 bus -> yields bus (analog_read pin) (fun _ => True).
Proof. intros Hbus. unfold analog_read. walk_yields. Qed.

(** X16: for parsed arguments and a transport whose blocks hold at least
    three bytes, the script ends by returning, with the usage error or with
    exit status 1: no exception leaves [main] uncaught. *)
Theorem script_never_ends_in_a_traceback (args : Cli.Namespace)
    (bus : SMBus) (w : trace) :
  Cli.parsed args -> blocks_of_bytes 3 bus ->
  match fst (Cli.script args bus w) with
  | Cli.Uncaught _ => False
  | _ => True
  end.
Proof.
  destruct args as [d a r wr p v]. unfold Cli.parsed. cbn.
  intros [Hda Hrw] Hbus.
  unfold Cli.script. cbn.
  assert (Hbody : forall (body : M (list string)),
             yields bus body (fun _ => True) ->
             match
               fst (match body bus w with
                    | (Ok out, w') => (Cli.Done out, w')
                    | (Raise (GrovePiException e), w') => (Cli.ExitError e, w')
                    | (Raise (Builtin e), w') => (Cli.Uncaught e, w')
                    end)
             with
             | Cli.Uncaught _ => False
             | _ => True
             end).
  { intros body Hy. specialize (Hy w).
    destruct (body bus w) as [[out | [e | g]] w']; cbn in *; try exact I.
    destruct Hy as (g & [=] & _). }
  destruct d, a; try discriminate Hda; destruct r, wr; try discriminate Hrw;
    destruct v as [v |]; cbn; try exact I;
    unfold Cli.main; cbn; apply Hbody;
    cbv [pin_mode eq_str digital_write analog_write Cli.int_arg];
    cbn [String.eqb Ascii.eqb Bool.eqb];
    repeat first
      [ apply yields_ret; exact I
      | eapply yields_bind;
        [ first [ apply yields_write
                | apply yields_digital_read
                | apply yields_analog_read; exact Hbus
                | apply (yields_ret bus _ (fun _ => True)); exact I ]
        | intros ] ].
Qed.

Lemma script_never_ends_in_a_traceback_witness :
  match fst (Cli.script
               {| Cli.digital := false; Cli.analog := true; Cli.read := true;
                  Cli.write := false; Cli.pin := 0; Cli.value := None |}
               (replying_bus 0 [0; 1; 2]) []) with
  | Cli.Uncaught _ => False
  | _ => True
  end.
Proof.
  apply (script_never_ends_in_a_traceback
           {| Cli.digital := false; Cli.analog := true; Cli.read := true;
              Cli.write := false; Cli.pin := 0; Cli.value := None |}
           (replying_bus 0 [0; 1; 2]) []).
  - split; reflexivity.
  - apply replying_bus_blocks; [cbn; lia |].
    repeat constructor; unfold is_byte; lia.
Defined.

(** X17: on a transport that answers, [main] sends the pin-mode frame and
    then the frame of the operation; a write prints nothing, a digital read
    prints the byte read and an analog read prints item 1 * 256 + item 2. *)
Theorem main_on_a_working_bus (p v x b0 b1 b2 : Z) (rest : list Z) :
  let bus := replying_bus x (b0 :: b1 :: b2 :: rest) in
  let args := fun d a r wr =>
    {| Cli.digital := d; Cli.analog := a; Cli.read := r; Cli.write := wr;
       Cli.pin := p; Cli.value := Some v |} in
  Cli.main (args true false false true) bus []
  = (Cli.Done [],
     [EvWrite 4 1 [5; p; 1; 0]; EvWrite 4 1 [2; p; v; 0]])
  /\ Cli.main (args true false true false) bus []
     = (Cli.Done [str_of_Z x],
        [EvWrite 4 1 [5; p; 0; 0]; EvWrite 4 1 [1; p; 0; 0]; EvSleep 100;
         EvReadByte 4])
  /\ Cli.main (args false true false true) bus []
     = (Cli.Done [],
        [EvWrite 4 1 [5; p; 1; 0]; EvWrite 4 1 [4; p; v; 0]])
  /\ Cli.main (args false true true false) bus []
     = (Cli.Done [str_of_Z (b1 * 256 + b2)],
        [EvWrite 4 1 [5; p; 0; 0]; EvWrite 4 1 [3; p; 0; 0]; EvSleep 100;
         EvReadByte 4; EvReadBlock 4 1; EvSleep 100]).
Proof. repeat split; reflexivity. Qed.

(** X18: once [parse_args] has returned a namespace, the script ends with
    its usage error exactly when the write flag is set and no value is
    given, and then it has not touched the transport; with any other
    namespace it does what [main] does. *)
Theorem usage_exit_only_for_write_without_value (args : Cli.Namespace)
    (bus : SMBus) (w : trace) :
  (fst (Cli.script args bus w) = Cli.ExitUsage
   <-> Cli.write args = true /\ Cli.value args = None)
  /\ (Cli.write args = true -> Cli.value args = None ->
      snd (Cli.script args bus w) = w)
  /\ (~ (Cli.write args = true /\ Cli.value args = None) ->
      Cli.script args bus w = Cli.main args bus w).
Proof.
  destruct args as [d a r wr p v]. unfold Cli.script. cbn.
  assert (Hmain : forall args', fst (Cli.main args' bus w) <> Cli.ExitUsage).
  { intros args'. unfold Cli.main.
    match goal with
    | |- context [match ?b bus w with _ => _ end] =>
        destruct (b bus w) as [[out | [e | g]] w']
    end; discriminate. }
  split; [| split].
  - split.
    + destruct wr; [destruct v as [v |] |]; cbn; intros H;
        try (now split); exfalso; exact (Hmain _ H).
    + intros [-> ->]. reflexivity.
  - intros -> ->. reflexivity.
  - intros H. destruct wr; [destruct v as [v |] |]; cbn; try reflexivity.
    exfalso. apply H. now split.
Qed.

Lemma usage_exit_only_for_write_without_value_witness :
  snd (Cli.script
         {| Cli.digital := true; Cli.analog := false; Cli.read := false;
            Cli.write := true; Cli.pin := 3; Cli.value := None |}
         (replying_bus 0 []) []) = [].
Proof.
  apply (proj1 (proj2 (usage_exit_only_for_write_without_value
           {| Cli.digital := true; Cli.analog := false; Cli.read := false;
              Cli.write := true; Cli.pin := 3; Cli.value := None |}
           (replying_bus 0 []) []))); reflexivity.
Defined.

